(** * Dumpulse UDP client ([client.py]): wire codec and request engine

    A shallow embedding of the Python client of the Dumpulse health-report
    service, and the properties of its packet codec, its checksum and its
    retry loop.

    Conventions of the embedding:
    - a Python [bytes] object is a [list byte]; a Python [int] is a [Z];
    - a Python [float] is a binary64 [float] of the kernel, so the products
      of the back-off schedule round exactly as CPython rounds them;
    - a raised exception is the [Raise] case of [result];
    - the socket is a record holding its timeout, the calls made on it so
      far, and the peer's behaviour as a function of that history;
    - [while True] is a fixpoint on a fuel argument, [None] meaning that
      the fuel ran out before the loop left. *)

From Stdlib Require Import String ZArith List Lia Bool PrimFloat.
From Stdlib Require Import Init.Byte.
From Stdlib Require Strings.Byte.
Import ListNotations.

Set Warnings "-inexact-float".
Local Open Scope Z_scope.

(** ** Bytes *)

Definition bytes := list byte.

Definition byte_val (b : byte) : Z := Z.of_N (Byte.to_N b).

(** The byte holding the low eight bits of [z]. *)
Definition byte_of_Z (z : Z) : byte :=
  match Byte.of_N (Z.to_N (Z.land z 255)) with
  | Some b => b
  | None => x00
  end.

(** [int.from_bytes(b, 'big')]. *)
Definition be_decode (b : bytes) : Z :=
  fold_left (fun acc x => Z.lor (Z.shiftl acc 8) (byte_val x)) b 0.

(** The [n] low-order bytes of [x], most significant first. *)
Fixpoint be_encode (n : nat) (x : Z) : bytes :=
  match n with
  | O => []
  | S k => byte_of_Z (Z.shiftr x (8 * Z.of_nat k)) :: be_encode k x
  end.

(** [range(n)]: empty when [n <= 0]. *)
Definition py_range (n : Z) : list Z := map Z.of_nat (seq 0 (Z.to_nat n)).

(** ** Exceptions *)

Inductive struct_fault :=
| bad_buffer_size (required : nat)   (* unpack requires a buffer of n bytes *)
| out_of_range (format : string).    (* format requires lo <= number <= hi *)

Inductive exn :=
| struct_error (why : struct_fault)
| ValueError (raw : bytes) (expected received : Z)
| socket_timeout
| OSError (errno : Z).

Inductive result (A : Type) :=
| Return (a : A)
| Raise (e : exn).
Arguments Return {A} a.
Arguments Raise {A} e.

Definition bind {A B} (c : result A) (k : A -> result B) : result B :=
  match c with
  | Return a => k a
  | Raise e => Raise e
  end.

Notation "x <- c ;; k" := (bind c (fun x => k))
  (at level 61, c at next level, right associativity).
Notation "' p <- c ;; k" := (bind c (fun x => let 'p := x in k))
  (at level 61, p pattern, c at next level, right associativity).

Fixpoint mapM {A B} (f : A -> result B) (l : list A) : result (list B) :=
  match l with
  | [] => Return []
  | a :: l' => b <- f a ;; bs <- mapM f l' ;; Return (b :: bs)
  end.

(** ** The [struct] module, for the three formats the client uses *)

Definition in_range (lo hi x : Z) : bool := (lo <=? x) && (x <=? hi).

(** One [B] field. *)
Definition pack_B (x : Z) : result bytes :=
  if in_range 0 255 x then Return (be_encode 1 x)
  else Raise (struct_error (out_of_range "B")).

(** [struct.pack("BBBB", a, b, c, d)]. *)
Definition struct_pack_BBBB (a b c d : Z) : result bytes :=
  ba <- pack_B a ;; bb <- pack_B b ;; bc <- pack_B c ;; bd <- pack_B d ;;
  Return (ba ++ bb ++ bc ++ bd).

(** [struct.pack(">L", x)]. *)
Definition struct_pack_L (x : Z) : result bytes :=
  if in_range 0 4294967295 x then Return (be_encode 4 x)
  else Raise (struct_error (out_of_range ">L")).

(** [struct.unpack(">L", b)], the one element of the tuple. *)
Definition struct_unpack_L (b : bytes) : result Z :=
  if (length b =? 4)%nat then Return (be_decode b)
  else Raise (struct_error (bad_buffer_size 4)).

(** [struct.unpack(">HBB", b)]. *)
Definition struct_unpack_HBB (b : bytes) : result (Z * Z * Z) :=
  match b with
  | [t1; t0; s; v] => Return (be_decode [t1; t0], byte_val s, byte_val v)
  | _ => Raise (struct_error (bad_buffer_size 4))
  end.

(** ** [zlib.adler32] *)

(** Python 2 returns the checksum as a signed 32-bit integer, Python 3 as an
    unsigned one. *)
Class Runtime := { zlib_signed : bool }.

Definition python3 : Runtime := {| zlib_signed := false |}.
Definition python2 : Runtime := {| zlib_signed := true |}.

Definition BASE : Z := 65521.

Definition adler_step (st : Z * Z) (x : byte) : Z * Z :=
  let a := (fst st + byte_val x) mod BASE in
  (a, (snd st + a) mod BASE).

(** The 32 bits of the Adler-32 checksum: [(b << 16) | a]. *)
Definition adler32_bits (data : bytes) : Z :=
  let '(a, b) := fold_left adler_step data (1, 0) in
  Z.lor (Z.shiftl b 16) a.

Definition zlib_adler32 `{Runtime} (data : bytes) : Z :=
  let v := adler32_bits data in
  if zlib_signed && (2 ^ 31 <=? v) then v - 2 ^ 32 else v.

(** ** Packet codec *)

(** The query packet to send to the server to get a health report. *)
Definition query_packet : bytes :=
  Eval cbv in list_byte_of_string "AreyouOK".

(** A tuple (variable number, timestamp, sender, value). *)
Definition setting := (Z * Z * Z * Z)%type.

Section Codec.
Context `{rt : Runtime}.

(** The generator, run to its end as [list(...)] does. *)
Definition _variable_settings (p : bytes) : result (list setting) :=
  mapM (fun v =>
          '(timestamp, sender, value) <-
            struct_unpack_HBB (firstn 4 (skipn (Z.to_nat (4 * (v + 1))) p)) ;;
          Return (v, timestamp, sender, value))
       (py_range (Z.of_nat (length p) / 4 - 1)).

Definition adler32 (data : bytes) : Z := zlib_adler32 data mod 2 ^ 32.

Definition parse_health_report (health_report_bytes : bytes)
  : result (list setting * Z * Z) :=
  let p := health_report_bytes in
  checksum <- struct_unpack_L (firstn 4 p) ;;
  settings <- _variable_settings p ;;
  Return (settings, adler32 (skipn 4 p), checksum).

Definition variable_settings (health_report_bytes : bytes)
  : result (list setting) :=
  '(settings, expected, received) <- parse_health_report health_report_bytes ;;
  if negb (expected =? received)
  then Raise (ValueError health_report_bytes expected received)
  else Return settings.

Definition set_packet (variable sender value : Z) : result bytes :=
  payload <- struct_pack_BBBB 0xf1 variable sender value ;;
  header <- struct_pack_L (adler32 payload) ;;
  Return (header ++ payload).

End Codec.

(** ** The datagram channel *)

(** The calls the client makes on the socket object. *)
Inductive call :=
| call_settimeout (t : option float)
| call_send (data : bytes)
| call_recv (bufsize : Z).

(** A connected datagram socket.  [sock_timeout] is what [gettimeout]
    reports ([None]: blocking); [sock_calls] lists the calls made so far,
    oldest first.  The network and the peer are outside the program: what a
    [send] or a [recv] does is a function of the calls made up to and
    including it, [on_send] giving the exception a [send] raises, if any,
    and [on_recv] the datagram a [recv] delivers or the exception it
    raises.  [settimeout] only records the new value. *)
Record socket := mkSocket {
  sock_timeout : option float;
  sock_calls : list call;
  on_send : list call -> option exn;
  on_recv : list call -> result bytes
}.

Definition called (c : call) (s : socket) : socket :=
  {| sock_timeout := sock_timeout s;
     sock_calls := sock_calls s ++ [c];
     on_send := on_send s;
     on_recv := on_recv s |}.

Definition gettimeout (s : socket) : option float := sock_timeout s.

Definition settimeout (t : option float) (s : socket) : socket :=
  {| sock_timeout := t;
     sock_calls := sock_calls s ++ [call_settimeout t];
     on_send := on_send s;
     on_recv := on_recv s |}.

(** [socket.send(data)]: the number of bytes sent. *)
Definition send (data : bytes) (s : socket) : result Z * socket :=
  let s' := called (call_send data) s in
  (match on_send s' (sock_calls s') with
   | None => Return (Z.of_nat (length data))
   | Some e => Raise e
   end, s').

(** [socket.recv(bufsize)]: a datagram, cut to [bufsize] bytes. *)
Definition recv (bufsize : Z) (s : socket) : result bytes * socket :=
  let s' := called (call_recv bufsize) s in
  (match on_recv s' (sock_calls s') with
   | Return d => Return (firstn (Z.to_nat bufsize) d)
   | Raise e => Raise e
   end, s').

(** ** Request engine *)

Section Engine.
Context `{rt : Runtime}.

Definition initial_retry_interval : float := 0.25.
Definition retry_delay_factor : float := 1.4142.
(** The source writes the integer [16]; the comparison converts it. *)
Definition max_retry_interval : float := 16.

(** The body of the inner [try]: the send, then the receive. *)
Definition attempt (s : socket) : result bytes * socket :=
  match send query_packet s with
  | (Return _, s1) => recv 2048 s1
  | (Raise e, s1) => (Raise e, s1)
  end.

(** The [while True] loop.  [Return None] is the [return None] of the
    give-up branch; an exception other than [socket.timeout] leaves the
    loop as it is. *)
Fixpoint retry_loop (fuel : nat) (retry_interval : float) (s : socket)
  : option (result (option bytes) * socket) :=
  match fuel with
  | O => None
  | S fuel' =>
      match attempt (settimeout (Some retry_interval) s) with
      | (Return p, s') => Some (Return (Some p), s')
      | (Raise socket_timeout, s') =>
          let retry_interval := (retry_interval * retry_delay_factor)%float in
          if (max_retry_interval <? retry_interval)%float
          then Some (Return None, s')
          else retry_loop fuel' retry_interval s'
      | (Raise e, s') => Some (Raise e, s')
      end
  end.

(** The [finally] clause runs on whatever the loop left with. *)
Definition get_health_report (fuel : nat) (socket_object : socket)
  : option (result (option bytes) * socket) :=
  let timeout := gettimeout socket_object in
  match retry_loop fuel initial_retry_interval socket_object with
  | Some (r, s') => Some (r, settimeout timeout s')
  | None => None
  end.

(** The argument of [send] is evaluated before the call. *)
Definition set_variable (socket_object : socket) (variable sender value : Z)
  : result unit * socket :=
  match set_packet variable sender value with
  | Return packet =>
      match send packet socket_object with
      | (Return _, s') => (Return tt, s')
      | (Raise e, s') => (Raise e, s')
      end
  | Raise e => (Raise e, socket_object)
  end.

End Engine.

(** The retry interval in force after [k] timeouts. *)
Fixpoint interval_after (k : nat) : float :=
  match k with
  | O => initial_retry_interval
  | S k' => (interval_after k' * retry_delay_factor)%float
  end.

(** Whether the back-off started at [i] gives up within [fuel] timeouts. *)
Fixpoint gives_up_within (fuel : nat) (i : float) : bool :=
  match fuel with
  | O => false
  | S fuel' =>
      let i' := (i * retry_delay_factor)%float in
      if (max_retry_interval <? i')%float then true
      else gives_up_within fuel' i'
  end.

(** The calls of attempt number [k] when its receive is reached. *)
Definition attempt_calls (k : nat) : list call :=
  [call_settimeout (Some (interval_after k));
   call_send query_packet;
   call_recv 2048].

(** The socket after further calls, with its timeout left at [t]. *)
Definition after_calls (t : option float) (cs : list call) (s : socket)
  : socket :=
  mkSocket t (sock_calls s ++ cs) (on_send s) (on_recv s).

(** The timeouts that a list of calls sets, in order. *)
Definition timeouts_set (cs : list call) : list (option float) :=
  flat_map (fun c => match c with
                     | call_settimeout t => [t]
                     | _ => []
                     end) cs.

(** A call that, if it is a send, sends the query packet. *)
Definition query_only (c : call) : Prop :=
  match c with
  | call_send d => d = query_packet
  | _ => True
  end.

(** A channel on which every send goes out and nothing ever comes back. *)
Definition silent (s : socket) : Prop :=
  (forall h, on_send s h = None) /\
  (forall h, on_recv s h = Raise socket_timeout).

Definition silent_socket (t : option float) : socket :=
  mkSocket t [] (fun _ => None) (fun _ => Raise socket_timeout).


(** The record that sits at position [k] of the body of [p]: bytes
    [4 + 4k .. 4 + 4k + 3], read as a big-endian 16-bit timestamp, a sender
    byte and a value byte. *)
Definition record_at (p : bytes) (k : nat) : setting :=
  (Z.of_nat k,
   byte_val (nth (4 + 4 * k) p x00) * 256 + byte_val (nth (4 + 4 * k + 1) p x00),
   byte_val (nth (4 + 4 * k + 2) p x00),
   byte_val (nth (4 + 4 * k + 3) p x00)).

(** Two reports carrying one record, the second with its first checksum
    byte overwritten, and a report whose body has six bytes. *)
Definition sound_report : bytes := [x05; x37; x02; x0b; xf1; x05; x4c; xc8].
Definition corrupt_report : bytes := [xff; x37; x02; x0b; xf1; x05; x4c; xc8].
Definition padded_report : bytes :=
  [x00; x00; x00; x00; x12; x34; x4c; xc8; xaa; xbb].

(** A peer that answers the third query, and a network that fails. *)
Definition answers_third (reply : bytes) (t : option float) : socket :=
  mkSocket t []
           (fun _ => None)
           (fun h => if (length h <? 9)%nat then Raise socket_timeout
                     else Return reply).

Definition unreachable_socket (t : option float) : socket :=
  mkSocket t [] (fun _ => Some (OSError 101)) (fun _ => Raise socket_timeout).

(** A peer whose answer reaches the [n]-th receive and those after it,
    each attempt making three calls. *)
Definition answers_nth (n : nat) (reply : bytes) (t : option float) : socket :=
  mkSocket t []
           (fun _ => None)
           (fun h => if (length h <? 3 * n)%nat then Raise socket_timeout
                     else Return reply).

(** ** Display *)

(** What one [print] call writes: either [print(format.format(args))],
    kept as the format string and the arguments in the order they are
    passed, or [print(text, socket_object.getpeername())].  [getpeername]
    only reads the address the socket is connected to. *)
Inductive printed :=
| printed_format (format : string) (args : list Z)
| printed_peername (text : string).

Section Display.
Context `{rt : Runtime}.

Definition show_health_report (fuel : nat) (socket_object : socket)
  : option (result unit * socket * list printed) :=
  match get_health_report fuel socket_object with
  | None => None
  | Some (Raise e, s) => Some (Raise e, s, [])
  | Some (Return None, s) =>
      Some (Return tt, s, [printed_peername "Timeout polling"])
  | Some (Return (Some p), s) =>
      let out :=
        [printed_format "Health report of {} bytes:" [Z.of_nat (length p)]] in
      match parse_health_report p with
      | Raise e => Some (Raise e, s, out)
      | Return (settings, expected, checksum) =>
          let out :=
            out ++
            [if checksum =? expected
             then printed_format "checksum {:08x} checks OK" [checksum]
             else printed_format
                    "checksum {:08x} doesn’t match {:08x} in packet"
                    [expected; checksum]] in
          Some (Return tt, s,
                out ++
                map (fun '(v, timestamp, sender, value) =>
                       printed_format "v{} = {} at {} from {}"
                                      [v; value; timestamp; sender])
                    settings)
      end
  end.

End Display.

(** ** Measures used in the statements *)

(** The sum of the bytes of a buffer. *)
Definition byte_sum (data : bytes) : Z :=
  fold_right (fun x acc => byte_val x + acc) 0 data.

Definition is_send (c : call) : bool :=
  match c with call_send _ => true | _ => false end.

Definition is_recv (c : call) : bool :=
  match c with call_recv _ => true | _ => false end.

Definition sends_in (cs : list call) : nat := length (filter is_send cs).
Definition recvs_in (cs : list call) : nat := length (filter is_recv cs).

(** The line printed for one setting. *)
Definition setting_line (x : setting) : printed :=
  let '(v, timestamp, sender, value) := x in
  printed_format "v{} = {} at {} from {}" [v; value; timestamp; sender].

(** * Properties *)

(** ** Bytes and fixed-width integers *)

Lemma byte_val_range (b : byte) : 0 <= byte_val b < 256.
Proof.
  unfold byte_val. pose proof (Byte.to_N_bounded b). lia.
Qed.

Lemma byte_val_of_Z (z : Z) : byte_val (byte_of_Z z) = z mod 256.
Proof.
  unfold byte_of_Z, byte_val.
  change 255 with (Z.ones 8). rewrite Z.land_ones by lia.
  change (2 ^ 8) with 256.
  pose proof (Z.mod_pos_bound z 256 ltac:(lia)) as Hm.
  destruct (Byte.of_N (Z.to_N (z mod 256))) as [b|] eqn:E.
  - apply Byte.to_of_N in E. rewrite E. lia.
  - apply Byte.of_N_None_iff in E. lia.
Qed.

Lemma land_shiftl_low (a x n : Z) :
  0 <= n -> 0 <= x < 2 ^ n -> Z.land (Z.shiftl a n) x = 0.
Proof.
  intros Hn Hx. apply Z.bits_inj'. intros k Hk.
  rewrite Z.land_spec, Z.bits_0.
  destruct (Z.ltb_spec k n) as [Hlt|Hge].
  - rewrite Z.shiftl_spec_low by lia. reflexivity.
  - destruct (Z.eq_dec x 0) as [->|Hx0].
    + rewrite Z.bits_0. apply andb_false_r.
    + rewrite (Z.bits_above_log2 x k), andb_false_r; [reflexivity|lia|].
      apply Z.lt_le_trans with n; [|lia].
      apply Z.log2_lt_pow2; lia.
Qed.

(** [(a << n) | x] is [a * 2^n + x] when [x] fits in [n] bits. *)
Lemma lor_shiftl_add (a x n : Z) :
  0 <= n -> 0 <= x < 2 ^ n -> Z.lor (Z.shiftl a n) x = a * 2 ^ n + x.
Proof.
  intros Hn Hx.
  pose proof (land_shiftl_low a x n Hn Hx) as H0.
  rewrite <- Z.lxor_lor by exact H0.
  rewrite <- Z.add_nocarry_lxor by exact H0.
  rewrite Z.shiftl_mul_pow2 by lia. reflexivity.
Qed.

Lemma shift_or_byte (acc : Z) (x : byte) :
  Z.lor (Z.shiftl acc 8) (byte_val x) = acc * 256 + byte_val x.
Proof.
  pose proof (byte_val_range x).
  rewrite lor_shiftl_add by (change (2 ^ 8) with 256; lia).
  reflexivity.
Qed.

Lemma be_decode_snoc (l : bytes) (x : byte) :
  be_decode (l ++ [x]) = be_decode l * 256 + byte_val x.
Proof.
  unfold be_decode. rewrite fold_left_app. cbn [fold_left].
  apply shift_or_byte.
Qed.

Lemma be_decode_2 (a b : byte) :
  be_decode [a; b] = byte_val a * 256 + byte_val b.
Proof.
  change [a; b] with ([a] ++ [b]). rewrite be_decode_snoc.
  change [a] with ([] ++ [a]). rewrite be_decode_snoc.
  reflexivity.
Qed.

Lemma be_decode_4 (a b c d : byte) :
  be_decode [a; b; c; d] =
  ((byte_val a * 256 + byte_val b) * 256 + byte_val c) * 256 + byte_val d.
Proof.
  change [a; b; c; d] with ([a; b; c] ++ [d]). rewrite be_decode_snoc.
  change [a; b; c] with ([a; b] ++ [c]). rewrite be_decode_snoc.
  rewrite be_decode_2. reflexivity.
Qed.

Lemma be_decode_encode_4 (x : Z) :
  0 <= x < 2 ^ 32 -> be_decode (be_encode 4 x) = x.
Proof.
  intros Hx. cbn [be_encode]. rewrite be_decode_4, !byte_val_of_Z.
  rewrite !Z.shiftr_div_pow2 by lia.
  change (8 * Z.of_nat 3) with 24. change (8 * Z.of_nat 2) with 16.
  change (8 * Z.of_nat 1) with 8. change (8 * Z.of_nat 0) with 0.
  change (2 ^ 24) with 16777216. change (2 ^ 16) with 65536.
  change (2 ^ 8) with 256. change (2 ^ 0) with 1.
  change (2 ^ 32) with 4294967296 in Hx.
  Z.div_mod_to_equations. lia.
Qed.

Lemma be_encode_1 (x : Z) :
  0 <= x <= 255 -> be_encode 1 x = [byte_of_Z x].
Proof.
  intros _. cbn [be_encode]. change (8 * Z.of_nat 0) with 0.
  rewrite Z.shiftr_0_r. reflexivity.
Qed.

(** ** The checksum *)

Lemma adler_fold_range (data : bytes) (st : Z * Z) :
  0 <= fst st < BASE -> 0 <= snd st < BASE ->
  0 <= fst (fold_left adler_step data st) < BASE /\
  0 <= snd (fold_left adler_step data st) < BASE.
Proof.
  revert st. induction data as [|x data IH]; intros st Ha Hb.
  - split; assumption.
  - cbn [fold_left]. apply IH; unfold adler_step; cbn [fst snd];
      apply Z.mod_pos_bound; reflexivity.
Qed.

Lemma adler32_bits_range (data : bytes) : 0 <= adler32_bits data < 2 ^ 32.
Proof.
  unfold adler32_bits.
  destruct (adler_fold_range data (1, 0)) as [Ha Hb];
    [ cbn; unfold BASE; lia | cbn; unfold BASE; lia | ].
  destruct (fold_left adler_step data (1, 0)) as [a b].
  cbn [fst snd] in Ha, Hb. unfold BASE in Ha, Hb.
  rewrite lor_shiftl_add by (change (2 ^ 16) with 65536; lia).
  change (2 ^ 16) with 65536. change (2 ^ 32) with 4294967296. lia.
Qed.

(** The modulus undoes the sign of either runtime. *)
Lemma adler32_is_bits `{rt : Runtime} (data : bytes) :
  adler32 data = adler32_bits data.
Proof.
  unfold adler32, zlib_adler32.
  pose proof (adler32_bits_range data) as Hr.
  destruct (zlib_signed && (2 ^ 31 <=? adler32_bits data)) eqn:E.
  - replace (adler32_bits data - 2 ^ 32)
      with (adler32_bits data + (-1) * 2 ^ 32) by ring.
    rewrite Z.mod_add by lia. apply Z.mod_small. exact Hr.
  - apply Z.mod_small. exact Hr.
Qed.

(** ** The set-request encoder *)

Lemma in_range_true (lo hi x : Z) : lo <= x <= hi -> in_range lo hi x = true.
Proof.
  intros H. unfold in_range. apply andb_true_intro; split; apply Z.leb_le; lia.
Qed.

Lemma in_range_false (lo hi x : Z) :
  ~ lo <= x <= hi -> in_range lo hi x = false.
Proof.
  intros H. unfold in_range. apply andb_false_iff.
  destruct (Z.leb_spec lo x); [right; apply Z.leb_gt; lia | left; reflexivity].
Qed.

Lemma pack_B_ok (x : Z) : 0 <= x <= 255 -> pack_B x = Return [byte_of_Z x].
Proof.
  intros H. unfold pack_B. rewrite in_range_true by exact H.
  rewrite be_encode_1 by exact H. reflexivity.
Qed.

Lemma pack_B_bad (x : Z) :
  ~ 0 <= x <= 255 -> pack_B x = Raise (struct_error (out_of_range "B")).
Proof.
  intros H. unfold pack_B. rewrite in_range_false by exact H. reflexivity.
Qed.

Lemma byte_val_of_Z_small (x : Z) : 0 <= x <= 255 -> byte_val (byte_of_Z x) = x.
Proof.
  intros H. rewrite byte_val_of_Z. apply Z.mod_small. lia.
Qed.

Section CodecFacts.
Context `{rt : Runtime}.

Lemma struct_pack_L_adler32 (data : bytes) :
  struct_pack_L (adler32 data) = Return (be_encode 4 (adler32 data)).
Proof.
  unfold struct_pack_L. rewrite in_range_true; [reflexivity|].
  rewrite adler32_is_bits. pose proof (adler32_bits_range data) as H.
  change (2 ^ 32) with 4294967296 in H. lia.
Qed.

(** What the encoder returns on fields that fit a byte. *)
Lemma set_packet_ok (variable sender value : Z) :
  0 <= variable <= 255 -> 0 <= sender <= 255 -> 0 <= value <= 255 ->
  let payload :=
    [byte_of_Z 0xf1; byte_of_Z variable; byte_of_Z sender; byte_of_Z value] in
  set_packet variable sender value =
  Return (be_encode 4 (adler32 payload) ++ payload).
Proof.
  intros Hv Hs Hx payload. unfold set_packet, struct_pack_BBBB.
  rewrite (pack_B_ok 0xf1) by lia.
  rewrite (pack_B_ok variable), (pack_B_ok sender), (pack_B_ok value)
    by assumption.
  cbn [bind app]. fold payload.
  rewrite struct_pack_L_adler32. reflexivity.
Qed.

(** The encoder raises on the first field that does not fit a byte. *)
Lemma set_packet_bad (variable sender value : Z) :
  ~ (0 <= variable <= 255 /\ 0 <= sender <= 255 /\ 0 <= value <= 255) ->
  set_packet variable sender value = Raise (struct_error (out_of_range "B")).
Proof.
  intros H. unfold set_packet, struct_pack_BBBB.
  rewrite (pack_B_ok 0xf1) by lia. cbn [bind].
  destruct (Z_le_dec 0 variable) as [?|?], (Z_le_dec variable 255) as [?|?];
    try (rewrite (pack_B_bad variable) by lia; reflexivity).
  rewrite (pack_B_ok variable) by lia. cbn [bind].
  destruct (Z_le_dec 0 sender) as [?|?], (Z_le_dec sender 255) as [?|?];
    try (rewrite (pack_B_bad sender) by lia; reflexivity).
  rewrite (pack_B_ok sender) by lia. cbn [bind].
  rewrite (pack_B_bad value) by lia. reflexivity.
Qed.

End CodecFacts.

(** ** The health-report decoder *)

Lemma firstn_4_skipn (p : bytes) (i : nat) :
  (i + 4 <= length p)%nat ->
  firstn 4 (skipn i p) =
  [nth i p x00; nth (i + 1) p x00; nth (i + 2) p x00; nth (i + 3) p x00].
Proof.
  revert p. induction i as [|i IH]; intros p Hlen.
  - destruct p as [|a [|b [|c [|d p]]]]; cbn [length] in Hlen; try lia.
    reflexivity.
  - destruct p as [|a p]; cbn [length] in Hlen; [lia|].
    cbn [skipn Nat.add nth]. apply IH. lia.
Qed.

Lemma mapM_map {A B C} (f : B -> result C) (h : A -> B) (g : A -> C)
      (l : list A) :
  (forall x, In x l -> f (h x) = Return (g x)) ->
  mapM f (map h l) = Return (map g l).
Proof.
  induction l as [|a l IH]; intros Hf; [reflexivity|].
  cbn [map mapM]. rewrite (Hf a) by (left; reflexivity). cbn [bind].
  rewrite IH by (intros x Hx; apply Hf; right; exact Hx). reflexivity.
Qed.

(** The number of complete records after the checksum field. *)
Lemma record_count (p : bytes) :
  Z.to_nat (Z.of_nat (length p) / 4 - 1) = ((length p - 4) / 4)%nat.
Proof.
  destruct (Nat.lt_ge_cases (length p) 4) as [Hs|Hl].
  - replace (length p - 4)%nat with 0%nat by lia.
    rewrite Z.div_small by lia. reflexivity.
  - apply Nat2Z.inj. rewrite Nat2Z.inj_div, Nat2Z.inj_sub by exact Hl.
    rewrite Z2Nat.id by
      (pose proof (Z.div_le_mono 4 (Z.of_nat (length p)) 4); cbn in *; lia).
    replace (Z.of_nat (length p)) with
      ((Z.of_nat (length p) - Z.of_nat 4) + 1 * 4) at 1 by lia.
    rewrite Z.div_add by lia. lia.
Qed.

Lemma variable_settings_unchecked (p : bytes) :
  _variable_settings p =
  Return (map (record_at p) (seq 0 ((length p - 4) / 4))).
Proof.
  unfold _variable_settings, py_range. rewrite record_count.
  apply mapM_map. intros k Hk. apply in_seq in Hk.
  assert (Hfit : (4 + 4 * k + 4 <= length p)%nat).
  { pose proof (Nat.Div0.mul_div_le (length p - 4) 4). lia. }
  replace (Z.to_nat (4 * (Z.of_nat k + 1))) with (4 + 4 * k)%nat by lia.
  rewrite firstn_4_skipn by exact Hfit.
  cbn [struct_unpack_HBB bind]. rewrite be_decode_2. reflexivity.
Qed.

Lemma struct_unpack_L_short (p : bytes) :
  (length p < 4)%nat ->
  struct_unpack_L (firstn 4 p) = Raise (struct_error (bad_buffer_size 4)).
Proof.
  intros H. unfold struct_unpack_L.
  rewrite length_firstn, Nat.min_r by lia.
  destruct (Nat.eqb_spec (length p) 4); [lia | reflexivity].
Qed.

Lemma struct_unpack_L_long (p : bytes) :
  (4 <= length p)%nat ->
  struct_unpack_L (firstn 4 p) = Return (be_decode (firstn 4 p)).
Proof.
  intros H. unfold struct_unpack_L.
  rewrite length_firstn, Nat.min_l by lia. reflexivity.
Qed.

Section DecoderFacts.
Context `{rt : Runtime}.

Lemma parse_health_report_long (p : bytes) :
  (4 <= length p)%nat ->
  parse_health_report p =
  Return (map (record_at p) (seq 0 ((length p - 4) / 4)),
          adler32 (skipn 4 p), be_decode (firstn 4 p)).
Proof.
  intros H. unfold parse_health_report.
  rewrite struct_unpack_L_long by exact H. cbn [bind].
  rewrite variable_settings_unchecked. reflexivity.
Qed.

Lemma parse_health_report_short (p : bytes) :
  (length p < 4)%nat ->
  parse_health_report p = Raise (struct_error (bad_buffer_size 4)).
Proof.
  intros H. unfold parse_health_report.
  rewrite struct_unpack_L_short by exact H. reflexivity.
Qed.

End DecoderFacts.

(** ** Checksum unit *)

Lemma adler32_range (rt : Runtime) (data : bytes) : 0 <= adler32 data < 2 ^ 32.
Proof.
  rewrite adler32_is_bits. apply adler32_bits_range.
Qed.

(** C6: [adler32] is deterministic, equal byte sequences giving equal
    results whichever runtime computes them; it takes every byte sequence,
    the empty one included, and raises nothing; its result lies in
    [0, 2^32) and is the library's result reduced modulo 2^32. *)
Theorem adler32_unsigned (rt rt' : Runtime) (d d' : bytes) :
  d = d' ->
  @adler32 rt d = @adler32 rt' d' /\
  0 <= @adler32 rt d < 2 ^ 32 /\
  @adler32 rt d = @zlib_adler32 rt d mod 2 ^ 32 /\
  @adler32 rt [] = 1.
Proof.
  intros <-. repeat split.
  - rewrite !adler32_is_bits. reflexivity.
  - apply adler32_range.
  - apply adler32_range.
  - rewrite adler32_is_bits. reflexivity.
Qed.

Lemma adler32_unsigned_witness :
  @adler32 python2 query_packet = @adler32 python3 query_packet /\
  0 <= @adler32 python2 query_packet < 2 ^ 32 /\
  @adler32 python2 query_packet = @zlib_adler32 python2 query_packet mod 2 ^ 32 /\
  @adler32 python2 [] = 1.
Proof.
  apply (adler32_unsigned python2 python3 query_packet query_packet).
  reflexivity.
Defined.

(** ** Packet codec *)

(** C2: on a variable index, a sender id and a value each in 0..255,
    [set_packet] returns eight bytes; bytes 4..7 are 0xF1, the variable, the
    sender and the value, and bytes 0..3 are the checksum of those four
    bytes, an unsigned 32-bit number, most significant byte first.  For
    variable 5, sender 76 and value 200 the payload is (0xF1, 5, 76, 200). *)
Theorem set_packet_layout (rt : Runtime) (variable sender value : Z) :
  0 <= variable <= 255 -> 0 <= sender <= 255 -> 0 <= value <= 255 ->
  (exists c0 c1 c2 c3 m b1 b2 b3 : byte,
      set_packet variable sender value =
      Return [c0; c1; c2; c3; m; b1; b2; b3] /\
      byte_val m = 0xf1 /\ byte_val b1 = variable /\
      byte_val b2 = sender /\ byte_val b3 = value /\
      ((byte_val c0 * 256 + byte_val c1) * 256 + byte_val c2) * 256
      + byte_val c3 = adler32 [m; b1; b2; b3] /\
      0 <= adler32 [m; b1; b2; b3] < 2 ^ 32) /\
  (exists c0 c1 c2 c3 : byte,
      set_packet 5 76 200 = Return [c0; c1; c2; c3; xf1; x05; x4c; xc8] /\
      be_decode [c0; c1; c2; c3] = adler32 [xf1; x05; x4c; xc8]).
Proof.
  intros Hv Hs Hx. split.
  - rewrite set_packet_ok by assumption. cbv zeta.
    set (payload := [byte_of_Z 241; byte_of_Z variable; byte_of_Z sender;
                     byte_of_Z value]).
    pose proof (adler32_range rt payload) as Hr.
    pose proof (be_decode_encode_4 _ Hr) as Hd.
    cbn [be_encode] in Hd |- *. rewrite be_decode_4 in Hd.
    do 8 eexists. split; [cbn [app]; reflexivity|].
    repeat split; try (apply byte_val_of_Z_small; lia);
      try exact Hd; apply Hr.
  - rewrite set_packet_ok by lia. cbv zeta.
    change [byte_of_Z 241; byte_of_Z 5; byte_of_Z 76; byte_of_Z 200]
      with [xf1; x05; x4c; xc8].
    pose proof (adler32_range rt [xf1; x05; x4c; xc8]) as Hr.
    pose proof (be_decode_encode_4 _ Hr) as Hd.
    cbn [be_encode] in Hd |- *.
    do 4 eexists. split; [cbn [app]; reflexivity | exact Hd].
Qed.

Lemma set_packet_layout_witness :
  (exists c0 c1 c2 c3 m b1 b2 b3 : byte,
      @set_packet python3 5 76 200 = Return [c0; c1; c2; c3; m; b1; b2; b3] /\
      byte_val m = 0xf1 /\ byte_val b1 = 5 /\
      byte_val b2 = 76 /\ byte_val b3 = 200 /\
      ((byte_val c0 * 256 + byte_val c1) * 256 + byte_val c2) * 256
      + byte_val c3 = @adler32 python3 [m; b1; b2; b3] /\
      0 <= @adler32 python3 [m; b1; b2; b3] < 2 ^ 32) /\
  (exists c0 c1 c2 c3 : byte,
      @set_packet python3 5 76 200 =
      Return [c0; c1; c2; c3; xf1; x05; x4c; xc8] /\
      be_decode [c0; c1; c2; c3] = @adler32 python3 [xf1; x05; x4c; xc8]).
Proof.
  apply (set_packet_layout python3 5 76 200); lia.
Defined.

(** C5: for a variable, a sender and a value in range, [set_packet]
    returns eight bytes whose bytes 4..7 are the payload 0xF1, variable,
    sender, value; parsing that packet gives an expected checksum,
    recomputed over bytes 4..7, equal to the received one, read from bytes
    0..3. *)
Theorem set_packet_round_trip (rt : Runtime) (variable sender value : Z) :
  0 <= variable <= 255 -> 0 <= sender <= 255 -> 0 <= value <= 255 ->
  exists packet settings expected received,
    set_packet variable sender value = Return packet /\
    length packet = 8%nat /\
    map byte_val (skipn 4 packet) = [0xf1; variable; sender; value] /\
    parse_health_report packet = Return (settings, expected, received) /\
    expected = adler32 (skipn 4 packet) /\
    received = be_decode (firstn 4 packet) /\
    expected = received.
Proof.
  intros Hv Hs Hx. rewrite set_packet_ok by assumption. cbv zeta.
  set (payload := [byte_of_Z 241; byte_of_Z variable; byte_of_Z sender;
                   byte_of_Z value]).
  pose proof (be_decode_encode_4 _ (adler32_range rt payload)) as Hd.
  eexists. eexists. eexists. eexists. split; [reflexivity|].
  split; [reflexivity|].
  split.
  { cbn [be_encode app skipn]. unfold payload. cbn [map].
    rewrite !byte_val_of_Z_small by lia. reflexivity. }
  split; [apply parse_health_report_long; cbn; lia|].
  split; [reflexivity|]. split; [reflexivity|].
  cbn [be_encode app skipn firstn] in Hd |- *. symmetry. exact Hd.
Qed.

Lemma set_packet_round_trip_witness :
  exists packet settings expected received,
    @set_packet python3 5 76 200 = Return packet /\
    length packet = 8%nat /\
    map byte_val (skipn 4 packet) = [0xf1; 5; 76; 200] /\
    @parse_health_report python3 packet =
    Return (settings, expected, received) /\
    expected = @adler32 python3 (skipn 4 packet) /\
    received = be_decode (firstn 4 packet) /\
    expected = received.
Proof.
  apply (set_packet_round_trip python3 5 76 200); lia.
Defined.

(** C1: [variable_settings] raises the [ValueError] that carries the raw
    packet, the expected (computed) checksum and the received (embedded)
    one exactly when the checksum of the bytes after the four-byte field
    differs from the number in that field; when the two are equal it returns
    the decoded list of settings. *)
Theorem variable_settings_strict (rt : Runtime) (p : bytes) :
  (forall raw expected received,
      variable_settings p = Raise (ValueError raw expected received) <->
      raw = p /\ (4 <= length p)%nat /\
      expected = adler32 (skipn 4 p) /\
      received = be_decode (firstn 4 p) /\
      expected <> received) /\
  ((4 <= length p)%nat ->
   adler32 (skipn 4 p) = be_decode (firstn 4 p) ->
   exists settings,
     _variable_settings p = Return settings /\
     variable_settings p = Return settings).
Proof.
  destruct (Nat.lt_ge_cases (length p) 4) as [Hs|Hl].
  - split; [|lia]. intros raw e r. unfold variable_settings.
    rewrite parse_health_report_short by exact Hs. cbn [bind].
    split; [discriminate | lia].
  - unfold variable_settings. rewrite parse_health_report_long by exact Hl.
    cbn [bind]. rewrite variable_settings_unchecked.
    destruct (Z.eqb_spec (adler32 (skipn 4 p)) (be_decode (firstn 4 p)))
      as [He|Hne]; cbn [negb].
    + split.
      * intros raw e r. split; [discriminate|].
        intros (_ & _ & -> & -> & Hd). contradiction.
      * intros _ _. eexists. split; reflexivity.
    + split.
      * intros raw e r. split.
        -- intros H. injection H as <- <- <-. repeat split; assumption.
        -- intros (-> & _ & -> & -> & _). reflexivity.
      * intros _ He. contradiction.
Qed.

Lemma variable_settings_strict_witness :
  @variable_settings python3 corrupt_report =
  Raise (ValueError corrupt_report 87491083 4281795083) /\
  exists settings,
    _variable_settings sound_report = Return settings /\
    @variable_settings python3 sound_report = Return settings.
Proof.
  split.
  - apply (proj1 (variable_settings_strict python3 corrupt_report)).
    repeat split; [cbn; lia | vm_compute; discriminate].
  - apply (proj2 (variable_settings_strict python3 sound_report));
      [cbn; lia | reflexivity].
Defined.

(** C3: on a buffer of at least four bytes the decoder cuts the bytes from
    byte 4 on into consecutive four-byte records; record [k], counted from
    0, gives the tuple of [k], the big-endian 16-bit timestamp, the sender
    byte and the value byte.  Bytes after the last complete record are
    dropped and nothing is raised: a six-byte body gives exactly one
    setting. *)
Theorem variable_settings_records (p : bytes) :
  (4 <= length p)%nat ->
  exists settings,
    _variable_settings p = Return settings /\
    length settings = ((length p - 4) / 4)%nat /\
    (forall k, (k < (length p - 4) / 4)%nat ->
       nth_error settings k =
       Some (Z.of_nat k,
             byte_val (nth (4 + 4 * k) p x00) * 256
             + byte_val (nth (4 + 4 * k + 1) p x00),
             byte_val (nth (4 + 4 * k + 2) p x00),
             byte_val (nth (4 + 4 * k + 3) p x00))) /\
    _variable_settings (firstn (4 + 4 * ((length p - 4) / 4)) p)
    = Return settings /\
    (length p = 10%nat -> settings = [record_at p 0]).
Proof.
  intros Hlen. rewrite !variable_settings_unchecked.
  set (n := ((length p - 4) / 4)%nat).
  assert (Hn : (4 + 4 * n <= length p)%nat).
  { pose proof (Nat.Div0.mul_div_le (length p - 4) 4). subst n. lia. }
  eexists. split; [reflexivity|].
  split; [rewrite length_map, length_seq; reflexivity|].
  split.
  { intros k Hk. rewrite nth_error_map, nth_error_seq.
    destruct (Nat.ltb_spec k n); [reflexivity | lia]. }
  split.
  { rewrite length_firstn, Nat.min_l by exact Hn.
    replace (4 + 4 * n - 4)%nat with (n * 4)%nat by lia.
    rewrite Nat.div_mul by lia. f_equal.
    apply map_ext_in. intros k Hk. apply in_seq in Hk.
    unfold record_at. rewrite !nth_firstn.
    repeat match goal with
           | |- context [(?a <? ?b)%nat] =>
               destruct (Nat.ltb_spec a b); [|lia]
           end.
    reflexivity. }
  intros H10. subst n. rewrite H10. reflexivity.
Qed.

Lemma variable_settings_records_witness :
  exists settings,
    _variable_settings padded_report = Return settings /\
    length settings = ((length padded_report - 4) / 4)%nat /\
    (forall k, (k < (length padded_report - 4) / 4)%nat ->
       nth_error settings k =
       Some (Z.of_nat k,
             byte_val (nth (4 + 4 * k) padded_report x00) * 256
             + byte_val (nth (4 + 4 * k + 1) padded_report x00),
             byte_val (nth (4 + 4 * k + 2) padded_report x00),
             byte_val (nth (4 + 4 * k + 3) padded_report x00))) /\
    _variable_settings
      (firstn (4 + 4 * ((length padded_report - 4) / 4)) padded_report)
    = Return settings /\
    (length padded_report = 10%nat -> settings = [record_at padded_report 0]).
Proof.
  apply (variable_settings_records padded_report). cbn. lia.
Defined.

(** C8: on a buffer of fewer than four bytes, too short to hold the
    checksum field, decoding raises [struct.error] to the caller, from the
    lenient decoder and from the strict one alike; no list of settings is
    returned. *)
Theorem short_report_rejected (rt : Runtime) (p : bytes) :
  (length p < 4)%nat ->
  parse_health_report p = Raise (struct_error (bad_buffer_size 4)) /\
  variable_settings p = Raise (struct_error (bad_buffer_size 4)).
Proof.
  intros Hs. unfold variable_settings.
  rewrite parse_health_report_short by exact Hs. split; reflexivity.
Qed.

Lemma short_report_rejected_witness :
  @parse_health_report python3 [x05; x37; x02] =
  Raise (struct_error (bad_buffer_size 4)) /\
  @variable_settings python3 [x05; x37; x02] =
  Raise (struct_error (bad_buffer_size 4)).
Proof.
  apply (short_report_rejected python3 [x05; x37; x02]). cbn. lia.
Defined.

(** ** Request engine *)

Lemma attempt_effect (s : socket) (r : result bytes) (s' : socket) :
  attempt s = (r, s') ->
  sock_timeout s' = sock_timeout s /\
  on_send s' = on_send s /\ on_recv s' = on_recv s /\
  (sock_calls s' = sock_calls s ++ [call_send query_packet] \/
   sock_calls s' = sock_calls s ++ [call_send query_packet; call_recv 2048]).
Proof.
  unfold attempt, send, recv. cbn [called sock_calls on_send on_recv].
  destruct (on_send s _) as [e|]; intros H; injection H as <- <-;
    cbn [called sock_timeout sock_calls on_send on_recv].
  - repeat split; left; reflexivity.
  - repeat split. right. rewrite <- app_assoc. reflexivity.
Qed.

(** Whatever the channel does, the loop only ever sends the query packet,
    sends it at least once, and leaves the peer as it was. *)
Lemma retry_loop_calls (fuel : nat) (i : float) (s : socket)
      (r : result (option bytes)) (s' : socket) :
  retry_loop fuel i s = Some (r, s') ->
  on_send s' = on_send s /\ on_recv s' = on_recv s /\
  exists calls,
    sock_calls s' = sock_calls s ++ calls /\
    Forall query_only calls /\ In (call_send query_packet) calls.
Proof.
  revert i s. induction fuel as [|fuel IH]; intros i s; [discriminate|].
  cbn [retry_loop].
  destruct (attempt (settimeout (Some i) s)) as [ra s1] eqn:Ea.
  apply attempt_effect in Ea.
  cbn [settimeout sock_timeout sock_calls on_send on_recv] in Ea.
  destruct Ea as (_ & Hs & Hr & Hc).
  assert (Hone : exists calls,
             sock_calls s1 = sock_calls s ++ calls /\
             Forall query_only calls /\ In (call_send query_packet) calls).
  { destruct Hc as [Hc|Hc]; rewrite Hc, <- app_assoc; eexists;
      (split; [reflexivity|]); cbn [app];
      (split; [repeat constructor | cbn; auto]). }
  assert (Hleave : forall r0, Some (r0, s1) = Some (r, s') ->
             on_send s' = on_send s /\ on_recv s' = on_recv s /\
             exists calls,
               sock_calls s' = sock_calls s ++ calls /\
               Forall query_only calls /\ In (call_send query_packet) calls).
  { intros r0 H. injection H as _ <-. auto. }
  destruct ra as [p|e]; [apply Hleave|].
  destruct e; try apply Hleave.
  destruct (max_retry_interval <? i * retry_delay_factor)%float;
    [apply Hleave|].
  intros H. apply IH in H. destruct H as (Hs' & Hr' & calls' & Hc' & Hq & _).
  destruct Hone as (calls & Hc1 & Hq1 & Hin).
  split; [congruence|]. split; [congruence|].
  exists (calls ++ calls'). split; [|split].
  - rewrite Hc', Hc1, app_assoc. reflexivity.
  - apply Forall_app. split; assumption.
  - apply in_or_app. left. exact Hin.
Qed.

(** The loop leaves within the number of timeouts the back-off allows. *)
Lemma retry_loop_total (fuel : nat) (i : float) (s : socket) :
  gives_up_within fuel i = true ->
  exists r s', retry_loop fuel i s = Some (r, s').
Proof.
  revert i s. induction fuel as [|fuel IH]; intros i s; [discriminate|].
  cbn [retry_loop gives_up_within].
  destruct (attempt (settimeout (Some i) s)) as [ra s1].
  destruct ra as [p|e]; [eauto|].
  destruct e; eauto.
  destruct (max_retry_interval <? i * retry_delay_factor)%float; eauto.
Qed.

Lemma thirteen_timeouts : gives_up_within 13 initial_retry_interval = true.
Proof. vm_compute. reflexivity. Qed.

Lemma get_health_report_total (s : socket) :
  exists r s', get_health_report 13 s = Some (r, s').
Proof.
  unfold get_health_report.
  destruct (retry_loop_total 13 initial_retry_interval s thirteen_timeouts)
    as (r & s' & ->).
  eauto.
Qed.

(** *** The channel that never answers *)

Lemma silent_after (t : option float) (cs : list call) (s : socket) :
  silent s -> silent (after_calls t cs s).
Proof.
  intros [Hs Hr]. split; assumption.
Qed.

Lemma after_calls_twice (t1 t2 : option float) (c1 c2 : list call)
      (s : socket) :
  after_calls t2 c2 (after_calls t1 c1 s) = after_calls t2 (c1 ++ c2) s.
Proof.
  unfold after_calls. cbn [sock_calls on_send on_recv].
  rewrite app_assoc. reflexivity.
Qed.

Lemma attempt_silent (k : nat) (s : socket) :
  silent s ->
  attempt (settimeout (Some (interval_after k)) s) =
  (Raise socket_timeout,
   after_calls (Some (interval_after k)) (attempt_calls k) s).
Proof.
  intros [Hs Hr]. unfold attempt, send, recv.
  cbn [called settimeout sock_timeout sock_calls on_send on_recv].
  rewrite Hs, Hr. unfold after_calls, attempt_calls, called, settimeout.
  cbn [sock_timeout sock_calls on_send on_recv].
  rewrite <- !app_assoc. reflexivity.
Qed.

Lemma ceiling_not_reached (k : nat) :
  (k < 12)%nat -> (max_retry_interval <? interval_after (S k))%float = false.
Proof.
  intros Hk.
  do 12 (destruct k as [|k]; [vm_compute; reflexivity|]). lia.
Qed.

Lemma ceiling_crossed :
  (max_retry_interval <? interval_after 13)%float = true.
Proof. vm_compute. reflexivity. Qed.

Lemma retry_loop_silent (fuel k : nat) (s : socket) :
  silent s -> (k <= 12)%nat -> (13 - k <= fuel)%nat ->
  retry_loop fuel (interval_after k) s =
  Some (Return None,
        after_calls (Some (interval_after 12))
                    (flat_map attempt_calls (seq k (13 - k))) s).
Proof.
  revert k s. induction fuel as [|fuel IH]; intros k s Hs Hk Hf; [lia|].
  cbn [retry_loop]. rewrite attempt_silent by exact Hs.
  change (interval_after k * retry_delay_factor)%float
    with (interval_after (S k)).
  replace (13 - k)%nat with (S (12 - k)) by lia.
  cbn [seq flat_map].
  destruct (Nat.eq_dec k 12) as [->|Hne].
  - rewrite ceiling_crossed. cbn [Nat.sub seq flat_map].
    rewrite app_nil_r. reflexivity.
  - rewrite ceiling_not_reached by lia.
    rewrite IH by (try apply silent_after; try assumption; lia).
    rewrite after_calls_twice.
    replace (13 - S k)%nat with (12 - k)%nat by lia. reflexivity.
Qed.

Lemma retry_loop_silent_short (fuel k : nat) (s : socket) :
  silent s -> (k + fuel <= 12)%nat ->
  retry_loop fuel (interval_after k) s = None.
Proof.
  revert k s. induction fuel as [|fuel IH]; intros k s Hs Hf; [reflexivity|].
  cbn [retry_loop]. rewrite attempt_silent by exact Hs.
  change (interval_after k * retry_delay_factor)%float
    with (interval_after (S k)).
  rewrite ceiling_not_reached by lia.
  apply IH; [apply silent_after; exact Hs | lia].
Qed.

(** *** The schedule on any channel *)

Lemma timeouts_set_app (c1 c2 : list call) :
  timeouts_set (c1 ++ c2) = timeouts_set c1 ++ timeouts_set c2.
Proof.
  unfold timeouts_set. apply flat_map_app.
Qed.

(** Entered at interval number [k], the loop sets the intervals
    [k .. n-1] and nothing else; it can only give up with [n = 13]. *)
Lemma retry_loop_schedule (fuel k : nat) (s : socket)
      (r : result (option bytes)) (s' : socket) :
  (k <= 12)%nat ->
  retry_loop fuel (interval_after k) s = Some (r, s') ->
  exists calls n,
    sock_calls s' = sock_calls s ++ calls /\
    (k < n <= 13)%nat /\
    timeouts_set calls =
    map (fun j => Some (interval_after j)) (seq k (n - k)) /\
    (r = Return None -> n = 13%nat).
Proof.
  revert k s. induction fuel as [|fuel IH]; intros k s Hk; [discriminate|].
  cbn [retry_loop].
  destruct (attempt (settimeout (Some (interval_after k)) s))
    as [ra s1] eqn:Ea.
  apply attempt_effect in Ea.
  cbn [settimeout sock_timeout sock_calls on_send on_recv] in Ea.
  destruct Ea as (_ & _ & _ & Hc).
  assert (Hone : exists calls,
             sock_calls s1 = sock_calls s ++ calls /\
             timeouts_set calls = [Some (interval_after k)]).
  { destruct Hc as [Hc|Hc]; rewrite Hc, <- app_assoc; eexists;
      (split; [reflexivity|]); reflexivity. }
  destruct Hone as (calls & Hc1 & Ht1).
  assert (Hleave : forall r0, r0 <> Return None ->
             Some (r0, s1) = Some (r, s') ->
             exists calls n,
               sock_calls s' = sock_calls s ++ calls /\
               (k < n <= 13)%nat /\
               timeouts_set calls =
               map (fun j => Some (interval_after j)) (seq k (n - k)) /\
               (r = Return None -> n = 13%nat)).
  { intros r0 Hr0 H. injection H as <- <-.
    exists calls, (S k). split; [exact Hc1|]. split; [lia|].
    replace (S k - k)%nat with 1%nat by lia.
    split; [exact Ht1 | intros E; contradiction]. }
  destruct ra as [p|e]; [apply Hleave; discriminate|].
  destruct e; try (apply Hleave; discriminate).
  change (interval_after k * retry_delay_factor)%float
    with (interval_after (S k)).
  destruct (Nat.eq_dec k 12) as [->|Hne].
  - rewrite ceiling_crossed. intros H. injection H as <- <-.
    exists calls, 13%nat. split; [exact Hc1|]. split; [lia|].
    split; [exact Ht1 | reflexivity].
  - rewrite ceiling_not_reached by lia. intros H.
    apply IH in H; [|lia].
    destruct H as (calls' & n & Hc' & Hn & Ht' & Hnone).
    exists (calls ++ calls'), n. split; [|split; [lia|split]].
    + rewrite Hc', Hc1, app_assoc. reflexivity.
    + rewrite timeouts_set_app, Ht1, Ht'.
      replace (n - k)%nat with (S (n - S k)) by lia. reflexivity.
    + exact Hnone.
Qed.

(** C4: the request engine starts with a retry interval of 0.25 s and
    multiplies it by 1.4142 after each timeout; it gives up, returning
    [None], as soon as the new interval exceeds 16 s, which is at the
    thirteenth timeout and not before.  On a channel that always times out
    it therefore ends after thirteen queries, whatever fuel above that the
    loop is given: the growth of the interval alone ends the loop. *)
Theorem back_off_until_ceiling (fuel : nat) (s : socket) :
  silent s -> (13 <= fuel)%nat ->
  interval_after 0 = 0.25%float /\
  (forall k, interval_after (S k) = (interval_after k * 1.4142)%float) /\
  (forall k, (k < 12)%nat -> (16 <? interval_after (S k))%float = false) /\
  (16 <? interval_after 13)%float = true /\
  (forall (c : socket) (gas : nat) r c',
      get_health_report gas c = Some (r, c') ->
      exists calls n,
        sock_calls c' =
        sock_calls c ++ calls ++ [call_settimeout (gettimeout c)] /\
        (1 <= n <= 13)%nat /\
        timeouts_set calls =
        map (fun j => Some (interval_after j)) (seq 0 n) /\
        (r = Return None -> n = 13%nat)) /\
  (exists s',
      get_health_report fuel s = Some (Return None, s') /\
      sock_calls s' =
      sock_calls s ++ flat_map attempt_calls (seq 0 13)
                 ++ [call_settimeout (gettimeout s)]) /\
  (forall gas, (gas < 13)%nat -> get_health_report gas s = None).
Proof.
  intros Hs Hf. split; [reflexivity|]. split; [reflexivity|].
  split; [exact ceiling_not_reached|]. split; [exact ceiling_crossed|].
  split; [|split].
  - intros c gas r c'. unfold get_health_report.
    destruct (retry_loop gas initial_retry_interval c) as [[r1 c1]|] eqn:E;
      [|discriminate].
    intros H. injection H as <- <-.
    change initial_retry_interval with (interval_after 0) in E.
    apply retry_loop_schedule in E; [|lia].
    destruct E as (calls & n & Hc & Hn & Ht & Hnone).
    exists calls, n. cbn [settimeout sock_calls].
    rewrite Hc, <- app_assoc. rewrite Nat.sub_0_r in Ht.
    split; [reflexivity|]. split; [lia|]. split; assumption.
  - unfold get_health_report.
    change initial_retry_interval with (interval_after 0).
    rewrite retry_loop_silent by (try assumption; lia).
    eexists. split; [reflexivity|].
    cbn [settimeout after_calls sock_calls gettimeout].
    rewrite <- app_assoc. reflexivity.
  - intros gas Hlt. unfold get_health_report.
    change initial_retry_interval with (interval_after 0).
    rewrite retry_loop_silent_short by (try assumption; cbn; lia).
    reflexivity.
Qed.

Lemma back_off_until_ceiling_witness :
  exists s',
    get_health_report 13 (silent_socket (Some 3%float)) =
    Some (Return None, s') /\
    sock_calls s' =
    sock_calls (silent_socket (Some 3%float))
               ++ flat_map attempt_calls (seq 0 13)
               ++ [call_settimeout (gettimeout (silent_socket (Some 3%float)))].
Proof.
  apply (back_off_until_ceiling 13 (silent_socket (Some 3%float))).
  - split; intros h; reflexivity.
  - lia.
Defined.

(** C7: the engine reads the channel's timeout before the loop and sets it
    back to that value however the loop leaves: with the bytes received,
    with the give-up [None], or with an exception raised by the send or
    the receive.  The call always returns, and the timeout afterwards is
    the timeout before, the last call made being that [settimeout]. *)
Theorem timeout_restored (s : socket) :
  (exists r s', get_health_report 13 s = Some (r, s')) /\
  (forall fuel r s',
      get_health_report fuel s = Some (r, s') ->
      gettimeout s' = gettimeout s /\
      exists calls,
        sock_calls s' = sock_calls s ++ calls
                                   ++ [call_settimeout (gettimeout s)]).
Proof.
  split; [apply get_health_report_total|].
  intros fuel r s'. unfold get_health_report.
  destruct (retry_loop fuel initial_retry_interval s) as [[r1 s1]|] eqn:E;
    [|discriminate].
  intros H. injection H as <- <-.
  split; [reflexivity|].
  apply retry_loop_calls in E. destruct E as (_ & _ & calls & Hc & _).
  exists calls. cbn [settimeout sock_calls]. rewrite Hc, <- app_assoc.
  reflexivity.
Qed.

Lemma timeout_restored_witness :
  (exists s',
      get_health_report 13 (answers_third sound_report (Some 3%float)) =
      Some (Return (Some sound_report), s') /\
      gettimeout s' = Some 3%float) /\
  (exists s',
      get_health_report 13 (silent_socket None) = Some (Return None, s') /\
      gettimeout s' = None) /\
  (exists s',
      get_health_report 13 (unreachable_socket (Some 3%float)) =
      Some (Raise (OSError 101), s') /\
      gettimeout s' = Some 3%float).
Proof.
  repeat split.
  - eexists. split; [vm_compute; reflexivity|].
    apply (proj2 (timeout_restored
                    (answers_third sound_report (Some 3%float)))
                 13%nat (Return (Some sound_report)) _
                 ltac:(vm_compute; reflexivity)).
  - eexists. split; [vm_compute; reflexivity|].
    apply (proj2 (timeout_restored (silent_socket None))
                 13%nat (Return None) _ ltac:(vm_compute; reflexivity)).
  - eexists. split; [vm_compute; reflexivity|].
    apply (proj2 (timeout_restored (unreachable_socket (Some 3%float)))
                 13%nat (Raise (OSError 101)) _
                 ltac:(vm_compute; reflexivity)).
Defined.

(** The calls of the loop fall into rounds, one per attempt: round number
    [j] of a loop entered at interval number [k] sets the timeout to
    interval [k + j] and then sends the query packet, and receives after
    that unless the send raised. *)
Lemma retry_loop_rounds (fuel k : nat) (s : socket)
      (r : result (option bytes)) (s' : socket) :
  (k <= 12)%nat ->
  retry_loop fuel (interval_after k) s = Some (r, s') ->
  exists rounds,
    sock_calls s' = sock_calls s ++ concat rounds /\
    (1 <= length rounds <= 13 - k)%nat /\
    forall j round,
      nth_error rounds j = Some round ->
      round = [call_settimeout (Some (interval_after (k + j)));
               call_send query_packet] \/
      round = [call_settimeout (Some (interval_after (k + j)));
               call_send query_packet; call_recv 2048].
Proof.
  revert k s. induction fuel as [|fuel IH]; intros k s Hk; [discriminate|].
  cbn [retry_loop].
  destruct (attempt (settimeout (Some (interval_after k)) s))
    as [ra s1] eqn:Ea.
  apply attempt_effect in Ea.
  cbn [settimeout sock_timeout sock_calls on_send on_recv] in Ea.
  destruct Ea as (_ & _ & _ & Hc).
  assert (Hone : exists round,
             sock_calls s1 = sock_calls s ++ round /\
             (round = [call_settimeout (Some (interval_after k));
                       call_send query_packet] \/
              round = [call_settimeout (Some (interval_after k));
                       call_send query_packet; call_recv 2048])).
  { destruct Hc as [Hc|Hc]; rewrite Hc, <- app_assoc; eexists;
      (split; [reflexivity|]); [left | right]; reflexivity. }
  destruct Hone as (round & Hc1 & Hshape).
  assert (Hleave : forall r0, Some (r0, s1) = Some (r, s') ->
             exists rounds,
               sock_calls s' = sock_calls s ++ concat rounds /\
               (1 <= length rounds <= 13 - k)%nat /\
               forall j round,
                 nth_error rounds j = Some round ->
                 round = [call_settimeout (Some (interval_after (k + j)));
                          call_send query_packet] \/
                 round = [call_settimeout (Some (interval_after (k + j)));
                          call_send query_packet; call_recv 2048]).
  { intros r0 H. injection H as _ <-. exists [round].
    cbn [concat length]. rewrite app_nil_r.
    split; [exact Hc1|]. split; [lia|].
    intros j round' Hj. destruct j as [|j].
    - cbn [nth_error] in Hj. injection Hj as <-.
      rewrite Nat.add_0_r. exact Hshape.
    - cbn [nth_error] in Hj. destruct j; discriminate. }
  destruct ra as [p|e]; [apply Hleave|].
  destruct e; try apply Hleave.
  change (interval_after k * retry_delay_factor)%float
    with (interval_after (S k)).
  destruct (Nat.eq_dec k 12) as [->|Hne].
  - rewrite ceiling_crossed. apply Hleave.
  - rewrite ceiling_not_reached by lia. intros H.
    apply IH in H; [|lia].
    destruct H as (rounds & Hc' & Hn & Hall).
    exists (round :: rounds). cbn [concat length].
    split; [rewrite Hc', Hc1, app_assoc; reflexivity|].
    split; [lia|].
    intros j round' Hj. destruct j as [|j].
    + cbn [nth_error] in Hj. injection Hj as <-.
      rewrite Nat.add_0_r. exact Hshape.
    + cbn [nth_error] in Hj. apply Hall in Hj.
      rewrite Nat.add_succ_r. exact Hj.
Qed.

(** C10: on every attempt of the retry loop, the first and every retry, the
    payload handed to [send] is the eight-byte ASCII string "AreyouOK".
    The calls of one request are the rounds of its attempts followed by
    the restoring [settimeout]; there are between one and thirteen rounds,
    and round number [k] sets the timeout to interval [k], then sends the
    query packet, then receives unless the send raised.  So each attempt
    makes exactly one send, and no send carries anything else. *)
Theorem query_packet_on_every_attempt (s : socket) :
  query_packet = list_byte_of_string "AreyouOK" /\
  length query_packet = 8%nat /\
  (exists r s', get_health_report 13 s = Some (r, s')) /\
  (forall fuel r s',
      get_health_report fuel s = Some (r, s') ->
      exists calls rounds,
        sock_calls s' = sock_calls s ++ calls /\
        calls = concat rounds ++ [call_settimeout (gettimeout s)] /\
        (1 <= length rounds <= 13)%nat /\
        (forall k round,
            nth_error rounds k = Some round ->
            round = [call_settimeout (Some (interval_after k));
                     call_send query_packet] \/
            round = [call_settimeout (Some (interval_after k));
                     call_send query_packet; call_recv 2048]) /\
        In (call_send query_packet) calls /\
        forall d, In (call_send d) calls -> d = query_packet).
Proof.
  split; [reflexivity|]. split; [reflexivity|].
  split; [apply get_health_report_total|].
  intros fuel r s'. unfold get_health_report.
  destruct (retry_loop fuel initial_retry_interval s) as [[r1 s1]|] eqn:E;
    [|discriminate].
  intros H. injection H as <- <-.
  pose proof E as E'.
  change initial_retry_interval with (interval_after 0) in E'.
  apply retry_loop_rounds in E'; [|lia].
  destruct E' as (rounds & Hcr & Hn & Hall).
  apply retry_loop_calls in E. destruct E as (_ & _ & calls & Hc & Hq & Hin).
  assert (Hsame : calls = concat rounds).
  { apply (app_inv_head (sock_calls s)). congruence. }
  subst calls.
  exists (concat rounds ++ [call_settimeout (gettimeout s)]), rounds.
  cbn [settimeout sock_calls]. rewrite Hc, <- app_assoc.
  split; [reflexivity|]. split; [reflexivity|].
  split; [lia|]. split; [exact Hall|].
  split; [apply in_or_app; left; exact Hin|].
  intros d Hd. apply in_app_or in Hd. destruct Hd as [Hd|Hd].
  - rewrite Forall_forall in Hq. apply (Hq (call_send d) Hd).
  - destruct Hd as [Hd|[]]. discriminate.
Qed.

Lemma query_packet_on_every_attempt_witness :
  exists s' calls rounds,
    get_health_report 13 (answers_third sound_report (Some 3%float)) =
    Some (Return (Some sound_report), s') /\
    sock_calls s' =
    sock_calls (answers_third sound_report (Some 3%float)) ++ calls /\
    calls =
    concat rounds
           ++ [call_settimeout
                 (gettimeout (answers_third sound_report (Some 3%float)))] /\
    (1 <= length rounds <= 13)%nat /\
    (forall k round,
        nth_error rounds k = Some round ->
        round = [call_settimeout (Some (interval_after k));
                 call_send query_packet] \/
        round = [call_settimeout (Some (interval_after k));
                 call_send query_packet; call_recv 2048]) /\
    In (call_send query_packet) calls /\
    forall d, In (call_send d) calls -> d = query_packet.
Proof.
  eexists.
  assert (E : get_health_report
                13 (answers_third sound_report (Some 3%float)) =
              Some (Return (Some sound_report), _))
    by (vm_compute; reflexivity).
  destruct (proj2 (proj2 (proj2 (query_packet_on_every_attempt
                     (answers_third sound_report (Some 3%float)))))
                  13%nat (Return (Some sound_report)) _ E)
    as (calls & rounds & H).
  exists calls, rounds. split; [exact E | exact H].
Defined.

Section SetRequest.
Context `{rt : Runtime}.

(** In range, the request goes out in one [send] of the encoded packet. *)
Lemma set_variable_sends_once (s : socket) (variable sender value : Z) :
  0 <= variable <= 255 -> 0 <= sender <= 255 -> 0 <= value <= 255 ->
  exists packet r s',
    set_packet variable sender value = Return packet /\
    set_variable s variable sender value = (r, s') /\
    sock_calls s' = sock_calls s ++ [call_send packet].
Proof.
  intros Hv Hs Hx. unfold set_variable.
  rewrite set_packet_ok by assumption. cbv zeta. unfold send.
  destruct (on_send _ _); do 3 eexists; repeat split.
Qed.

End SetRequest.

(** C9: when the variable index, the sender id or the value lies outside
    0..255, the encoder raises [struct.error] at once and [set_variable]
    hands nothing to the channel: the socket is left as it was, no [send]
    having been made. *)
Theorem out_of_range_never_sent (rt : Runtime) (s : socket)
        (variable sender value : Z) :
  ~ (0 <= variable <= 255 /\ 0 <= sender <= 255 /\ 0 <= value <= 255) ->
  set_packet variable sender value = Raise (struct_error (out_of_range "B")) /\
  set_variable s variable sender value =
  (Raise (struct_error (out_of_range "B")), s) /\
  sock_calls (snd (set_variable s variable sender value)) = sock_calls s.
Proof.
  intros H. unfold set_variable.
  rewrite set_packet_bad by exact H. repeat split.
Qed.

Lemma out_of_range_never_sent_witness :
  @set_packet python3 5 76 256 = Raise (struct_error (out_of_range "B")) /\
  @set_variable python3 (silent_socket None) 5 76 256 =
  (Raise (struct_error (out_of_range "B")), silent_socket None) /\
  sock_calls (snd (@set_variable python3 (silent_socket None) 5 76 256)) =
  sock_calls (silent_socket None).
Proof.
  apply (out_of_range_never_sent python3 (silent_socket None) 5 76 256). lia.
Defined.

(** * Further properties of the codec *)

Lemma byte_val_inj (x y : byte) : byte_val x = byte_val y -> x = y.
Proof.
  unfold byte_val. intros H. apply N2Z.inj in H.
  pose proof (Byte.of_to_N x) as Hx. rewrite H, Byte.of_to_N in Hx.
  congruence.
Qed.

(** The low half of the checksum is one plus the sum of the bytes. *)
Lemma adler_fold_fst (data : bytes) (st : Z * Z) :
  fst (fold_left adler_step data st) mod BASE =
  (fst st + byte_sum data) mod BASE.
Proof.
  revert st. induction data as [|x data IH]; intros st.
  - cbn [fold_left byte_sum fold_right]. rewrite Z.add_0_r. reflexivity.
  - cbn [fold_left byte_sum fold_right]. rewrite IH.
    unfold adler_step at 1. cbn [fst]. fold (byte_sum data).
    rewrite Zplus_mod_idemp_l. f_equal. ring.
Qed.

Lemma adler32_bits_low (data : bytes) :
  adler32_bits data mod 65536 = (1 + byte_sum data) mod BASE.
Proof.
  pose proof (adler_fold_fst data (1, 0)) as Hsum.
  unfold adler32_bits.
  destruct (adler_fold_range data (1, 0)) as [Ha Hb];
    [ cbn; unfold BASE; lia | cbn; unfold BASE; lia | ].
  destruct (fold_left adler_step data (1, 0)) as [a b].
  cbn [fst snd] in *. rewrite <- Hsum.
  unfold BASE in *.
  rewrite lor_shiftl_add by (change (2 ^ 16) with 65536; lia).
  change (2 ^ 16) with 65536.
  rewrite Z.add_comm, Z.mod_add by lia.
  rewrite (Z.mod_small a 65536), (Z.mod_small a 65521) by lia.
  reflexivity.
Qed.

Lemma byte_sum_app (d1 d2 : bytes) :
  byte_sum (d1 ++ d2) = byte_sum d1 + byte_sum d2.
Proof.
  induction d1 as [|x d1 IH]; cbn [app byte_sum fold_right]; [reflexivity|].
  fold (byte_sum (d1 ++ d2)). fold (byte_sum d1). rewrite IH. ring.
Qed.

Lemma adler32_bits_one_byte (pre post : bytes) (x y : byte) :
  x <> y -> adler32_bits (pre ++ x :: post) <> adler32_bits (pre ++ y :: post).
Proof.
  intros Hxy Heq. apply Hxy, byte_val_inj.
  pose proof (adler32_bits_low (pre ++ x :: post)) as Hx.
  pose proof (adler32_bits_low (pre ++ y :: post)) as Hy.
  rewrite Heq, Hy in Hx. clear Heq Hy.
  rewrite !byte_sum_app in Hx. cbn [byte_sum fold_right] in Hx.
  fold (byte_sum post) in Hx.
  pose proof (byte_val_range x). pose proof (byte_val_range y).
  unfold BASE in Hx.
  remember (byte_sum pre) as sp. remember (byte_sum post) as sq.
  remember (byte_val x) as vx. remember (byte_val y) as vy.
  Z.div_mod_to_equations. lia.
Qed.

Section CodecMore.
Context `{rt : Runtime}.

Lemma variable_settings_long (p : bytes) :
  (4 <= length p)%nat ->
  variable_settings p =
  if negb (adler32 (skipn 4 p) =? be_decode (firstn 4 p))
  then Raise (ValueError p (adler32 (skipn 4 p)) (be_decode (firstn 4 p)))
  else Return (map (record_at p) (seq 0 ((length p - 4) / 4))).
Proof.
  intros H. unfold variable_settings.
  rewrite parse_health_report_long by exact H. reflexivity.
Qed.

Lemma split_header (h body : bytes) :
  length h = 4%nat ->
  firstn 4 (h ++ body) = h /\ skipn 4 (h ++ body) = body /\
  ((length (h ++ body) - 4) / 4 = length body / 4)%nat.
Proof.
  intros Hh. rewrite <- Hh at 1 2.
  rewrite firstn_app, Nat.sub_diag, firstn_all, skipn_app, Nat.sub_diag,
    skipn_all, length_app, Hh.
  cbn [firstn skipn app]. rewrite app_nil_r.
  repeat split. f_equal. lia.
Qed.

Lemma record_at_body (h h' body : bytes) (k : nat) :
  length h = 4%nat -> length h' = 4%nat ->
  record_at (h ++ body) k = record_at (h' ++ body) k.
Proof.
  intros Hh Hh'. unfold record_at.
  rewrite !(app_nth2 h) by lia. rewrite !(app_nth2 h') by lia.
  rewrite Hh, Hh'. reflexivity.
Qed.

End CodecMore.

(** X1: the lenient decoder does not look at the checksum field when it
    cuts the records: two buffers with the same body and any two four-byte
    fields give the same settings and the same computed checksum, the
    received checksum being whatever the field holds. *)
Theorem parse_ignores_checksum_field (rt : Runtime) (h h' body : bytes) :
  length h = 4%nat -> length h' = 4%nat ->
  exists settings,
    parse_health_report (h ++ body) =
    Return (settings, adler32 body, be_decode h) /\
    parse_health_report (h' ++ body) =
    Return (settings, adler32 body, be_decode h') /\
    length settings = (length body / 4)%nat.
Proof.
  intros Hh Hh'.
  destruct (split_header h body Hh) as (Hf & Hs & Hn).
  destruct (split_header h' body Hh') as (Hf' & Hs' & Hn').
  rewrite !parse_health_report_long by (rewrite length_app; lia).
  rewrite Hf, Hs, Hn, Hf', Hs', Hn'.
  eexists. split; [reflexivity|]. split.
  - do 2 f_equal. f_equal. apply map_ext. intros k.
    symmetry. apply record_at_body; assumption.
  - rewrite length_map, length_seq. reflexivity.
Qed.

Lemma parse_ignores_checksum_field_witness :
  exists settings,
    @parse_health_report python3 ([x05; x37; x02; x0b] ++ [xf1; x05; x4c; xc8])
    = Return (settings, @adler32 python3 [xf1; x05; x4c; xc8],
              be_decode [x05; x37; x02; x0b]) /\
    @parse_health_report python3 ([xff; x37; x02; x0b] ++ [xf1; x05; x4c; xc8])
    = Return (settings, @adler32 python3 [xf1; x05; x4c; xc8],
              be_decode [xff; x37; x02; x0b]) /\
    length settings = (length [xf1; x05; x4c; xc8] / 4)%nat.
Proof.
  apply (parse_ignores_checksum_field
           python3 [x05; x37; x02; x0b] [xff; x37; x02; x0b]
           [xf1; x05; x4c; xc8]); reflexivity.
Defined.

(** X2: any body prefixed with its own checksum, packed as [">L"], is a
    report the strict decoder accepts; it returns one setting for every
    four bytes of the body. *)
Theorem checksummed_report_accepted (rt : Runtime) (body : bytes) :
  exists header,
    struct_pack_L (adler32 body) = Return header /\
    length header = 4%nat /\
    variable_settings (header ++ body) =
    Return (map (record_at (header ++ body)) (seq 0 (length body / 4))).
Proof.
  exists (be_encode 4 (adler32 body)).
  split; [apply struct_pack_L_adler32|]. split; [reflexivity|].
  destruct (split_header (be_encode 4 (adler32 body)) body eq_refl)
    as (Hf & Hs & Hn).
  rewrite variable_settings_long by (rewrite length_app; cbn; lia).
  rewrite Hf, Hs, Hn.
  rewrite be_decode_encode_4 by apply adler32_range.
  rewrite Z.eqb_refl. reflexivity.
Qed.

(** X3: a report that carries the right checksum stops being accepted as
    soon as one byte of its body is changed: the strict decoder raises the
    [ValueError] with the checksum of the changed body as expected and the
    original checksum as received. *)
Theorem one_byte_corruption_detected (rt : Runtime)
        (header pre post : bytes) (x y : byte) :
  struct_pack_L (adler32 (pre ++ x :: post)) = Return header ->
  x <> y ->
  variable_settings (header ++ pre ++ y :: post) =
  Raise (ValueError (header ++ pre ++ y :: post)
                    (adler32 (pre ++ y :: post))
                    (adler32 (pre ++ x :: post))).
Proof.
  intros Hp Hxy. rewrite struct_pack_L_adler32 in Hp.
  assert (Hh : header = be_encode 4 (adler32 (pre ++ x :: post)))
    by congruence.
  clear Hp. subst header.
  destruct (split_header (be_encode 4 (adler32 (pre ++ x :: post)))
                         (pre ++ y :: post) eq_refl) as (Hf & Hs & _).
  rewrite variable_settings_long by (rewrite length_app; cbn; lia).
  rewrite Hf, Hs.
  rewrite be_decode_encode_4 by apply adler32_range.
  destruct (Z.eqb_spec (adler32 (pre ++ y :: post))
                       (adler32 (pre ++ x :: post))) as [He|Hne];
    [|reflexivity].
  exfalso. rewrite !adler32_is_bits in He.
  apply (adler32_bits_one_byte pre post x y Hxy). symmetry. exact He.
Qed.

Lemma one_byte_corruption_detected_witness :
  @variable_settings python3
    ([x05; x37; x02; x0b] ++ [xf1] ++ x06 :: [x4c; xc8]) =
  Raise (ValueError ([x05; x37; x02; x0b] ++ [xf1] ++ x06 :: [x4c; xc8])
                    (@adler32 python3 ([xf1] ++ x06 :: [x4c; xc8]))
                    (@adler32 python3 ([xf1] ++ x05 :: [x4c; xc8]))).
Proof.
  apply (one_byte_corruption_detected
           python3 [x05; x37; x02; x0b] [xf1] [x4c; xc8] x05 x06).
  - reflexivity.
  - discriminate.
Defined.

(** X4: the unchecked decoder raises on no buffer at all.  Its settings
    are numbered from 0 in order, their timestamps lie below 2^16 and
    their senders and values below 2^8; there are never more of them than
    whole four-byte groups after the first, and none on a buffer of fewer
    than eight bytes. *)
Theorem decoded_fields_bounded (p : bytes) :
  exists settings,
    _variable_settings p = Return settings /\
    (4 * length settings <= length p)%nat /\
    ((length p < 8)%nat -> settings = []) /\
    Forall (fun x : setting =>
              let '(v, timestamp, sender, value) := x in
              0 <= v < Z.of_nat (length settings) /\
              0 <= timestamp < 65536 /\
              0 <= sender < 256 /\ 0 <= value < 256) settings.
Proof.
  rewrite variable_settings_unchecked. eexists. split; [reflexivity|].
  rewrite length_map, length_seq.
  pose proof (Nat.Div0.mul_div_le (length p - 4) 4) as Hd.
  split; [|split].
  - destruct (Nat.lt_ge_cases (length p) 4) as [Hs|Hl]; [|lia].
    replace (length p - 4)%nat with 0%nat by lia. cbn. lia.
  - intros Hs. rewrite Nat.div_small by lia. reflexivity.
  - apply Forall_forall. intros x Hx. apply in_map_iff in Hx.
    destruct Hx as (k & <- & Hk). apply in_seq in Hk. unfold record_at.
    pose proof (byte_val_range (nth (4 + 4 * k) p x00)).
    pose proof (byte_val_range (nth (4 + 4 * k + 1) p x00)).
    pose proof (byte_val_range (nth (4 + 4 * k + 2) p x00)).
    pose proof (byte_val_range (nth (4 + 4 * k + 3) p x00)).
    lia.
Qed.

(** X5: the encoder loses nothing: two set-requests with fields in range
    that encode to the same packet have the same variable, sender and
    value. *)
Theorem set_packet_injective (rt : Runtime)
        (variable sender value variable' sender' value' : Z) :
  0 <= variable <= 255 -> 0 <= sender <= 255 -> 0 <= value <= 255 ->
  0 <= variable' <= 255 -> 0 <= sender' <= 255 -> 0 <= value' <= 255 ->
  set_packet variable sender value = set_packet variable' sender' value' ->
  variable = variable' /\ sender = sender' /\ value = value'.
Proof.
  intros Hv Hs Hx Hv' Hs' Hx'.
  rewrite !set_packet_ok by assumption. cbv zeta. cbn [be_encode app].
  intros H. injection H as _ _ _ _ Ev Es Ex.
  apply (f_equal byte_val) in Ev, Es, Ex.
  rewrite !byte_val_of_Z_small in Ev, Es, Ex by assumption.
  auto.
Qed.

Lemma set_packet_injective_witness :
  5 = 5 /\ 76 = 76 /\ 200 = 200.
Proof.
  apply (set_packet_injective python3 5 76 200 5 76 200); try lia.
  reflexivity.
Defined.

(** X6: a set-request packet is itself a buffer the strict decoder
    accepts: it decodes to the single setting numbered 0 whose timestamp is
    the marker 0xF1 followed by the variable, whose sender is the sender
    and whose value is the value. *)
Theorem set_packet_decodes_as_report (rt : Runtime)
        (variable sender value : Z) :
  0 <= variable <= 255 -> 0 <= sender <= 255 -> 0 <= value <= 255 ->
  exists packet,
    set_packet variable sender value = Return packet /\
    variable_settings packet =
    Return [(0, 0xf1 * 256 + variable, sender, value)].
Proof.
  intros Hv Hs Hx. rewrite set_packet_ok by assumption. cbv zeta.
  set (payload := [byte_of_Z 241; byte_of_Z variable; byte_of_Z sender;
                   byte_of_Z value]).
  eexists. split; [reflexivity|].
  destruct (split_header (be_encode 4 (adler32 payload)) payload eq_refl)
    as (Hf & Hsk & Hn).
  rewrite variable_settings_long by (rewrite length_app; cbn; lia).
  rewrite Hf, Hsk, Hn.
  rewrite be_decode_encode_4 by apply adler32_range.
  rewrite Z.eqb_refl. change (length payload / 4)%nat with 1%nat.
  cbn [negb seq map].
  unfold record_at, payload. cbn [be_encode app nth Nat.add Nat.mul].
  rewrite !byte_val_of_Z_small by lia. reflexivity.
Qed.

Lemma set_packet_decodes_as_report_witness :
  exists packet,
    @set_packet python3 5 76 200 = Return packet /\
    @variable_settings python3 packet =
    Return [(0, 0xf1 * 256 + 5, 76, 200)].
Proof.
  apply (set_packet_decodes_as_report python3 5 76 200); lia.
Defined.

(** X7: with fields in range, [set_variable] makes exactly one call on the
    socket, the [send] of the eight bytes [set_packet] built; it does not
    touch the timeout and receives nothing, and what it raises is what
    that [send] raises. *)
Theorem set_variable_one_send (rt : Runtime) (s : socket)
        (variable sender value : Z) :
  0 <= variable <= 255 -> 0 <= sender <= 255 -> 0 <= value <= 255 ->
  exists packet,
    set_packet variable sender value = Return packet /\
    length packet = 8%nat /\
    sock_calls (snd (set_variable s variable sender value)) =
    sock_calls s ++ [call_send packet] /\
    sock_timeout (snd (set_variable s variable sender value)) =
    sock_timeout s /\
    fst (set_variable s variable sender value) =
    match on_send s (sock_calls s ++ [call_send packet]) with
    | None => Return tt
    | Some e => Raise e
    end.
Proof.
  intros Hv Hs Hx. unfold set_variable.
  rewrite set_packet_ok by assumption. cbv zeta. unfold send.
  cbn [called sock_calls on_send].
  eexists. split; [reflexivity|]. split; [reflexivity|].
  destruct (on_send s _); repeat split.
Qed.

Lemma set_variable_one_send_witness :
  exists packet,
    @set_packet python3 5 76 200 = Return packet /\
    length packet = 8%nat /\
    sock_calls (snd (@set_variable python3 (silent_socket None) 5 76 200)) =
    sock_calls (silent_socket None) ++ [call_send packet] /\
    sock_timeout (snd (@set_variable python3 (silent_socket None) 5 76 200)) =
    sock_timeout (silent_socket None) /\
    fst (@set_variable python3 (silent_socket None) 5 76 200) =
    match on_send (silent_socket None)
                  (sock_calls (silent_socket None) ++ [call_send packet]) with
    | None => Return tt
    | Some e => Raise e
    end.
Proof.
  apply (set_variable_one_send python3 (silent_socket None) 5 76 200); lia.
Defined.

(** * Further properties of the request engine *)

Lemma sends_in_app (c1 c2 : list call) :
  sends_in (c1 ++ c2) = (sends_in c1 + sends_in c2)%nat.
Proof.
  unfold sends_in. rewrite filter_app, length_app. reflexivity.
Qed.

Lemma recvs_in_app (c1 c2 : list call) :
  recvs_in (c1 ++ c2) = (recvs_in c1 + recvs_in c2)%nat.
Proof.
  unfold recvs_in. rewrite filter_app, length_app. reflexivity.
Qed.

(** Entered at interval number [k], the loop sends between one and
    [13 - k] queries, each after setting one timeout and followed by at
    most one receive. *)
Lemma retry_loop_counts (fuel k : nat) (s : socket)
      (r : result (option bytes)) (s' : socket) :
  (k <= 12)%nat ->
  retry_loop fuel (interval_after k) s = Some (r, s') ->
  exists calls,
    sock_calls s' = sock_calls s ++ calls /\
    (1 <= sends_in calls <= 13 - k)%nat /\
    (recvs_in calls <= sends_in calls)%nat /\
    length (timeouts_set calls) = sends_in calls.
Proof.
  revert k s. induction fuel as [|fuel IH]; intros k s Hk; [discriminate|].
  cbn [retry_loop].
  destruct (attempt (settimeout (Some (interval_after k)) s))
    as [ra s1] eqn:Ea.
  apply attempt_effect in Ea.
  cbn [settimeout sock_timeout sock_calls on_send on_recv] in Ea.
  destruct Ea as (_ & _ & _ & Hc).
  assert (Hone : exists calls,
             sock_calls s1 = sock_calls s ++ calls /\
             sends_in calls = 1%nat /\ (recvs_in calls <= 1)%nat /\
             length (timeouts_set calls) = 1%nat).
  { destruct Hc as [Hc|Hc]; rewrite Hc, <- app_assoc; eexists;
      (split; [reflexivity|]); cbn; lia. }
  destruct Hone as (calls & Hc1 & Hs1 & Hr1 & Ht1).
  assert (Hleave : forall r0, Some (r0, s1) = Some (r, s') ->
             exists calls,
               sock_calls s' = sock_calls s ++ calls /\
               (1 <= sends_in calls <= 13 - k)%nat /\
               (recvs_in calls <= sends_in calls)%nat /\
               length (timeouts_set calls) = sends_in calls).
  { intros r0 H. injection H as _ <-. exists calls.
    split; [exact Hc1|]. lia. }
  destruct ra as [p|e]; [apply Hleave|].
  destruct e; try apply Hleave.
  change (interval_after k * retry_delay_factor)%float
    with (interval_after (S k)).
  destruct (Nat.eq_dec k 12) as [->|Hne].
  - rewrite ceiling_crossed. apply Hleave.
  - rewrite ceiling_not_reached by lia. intros H.
    apply IH in H; [|lia].
    destruct H as (calls' & Hc' & Hs' & Hr' & Ht').
    exists (calls ++ calls'). split.
    + rewrite Hc', Hc1, app_assoc. reflexivity.
    + rewrite sends_in_app, recvs_in_app, timeouts_set_app, length_app. lia.
Qed.

(** X8: whatever the channel does, one call of [get_health_report] sends
    at least one query and never more than thirteen; it makes at most one
    receive per query and sets the timeout once per query and once more at
    the end. *)
Theorem at_most_thirteen_queries (fuel : nat) (s : socket)
        (r : result (option bytes)) (s' : socket) :
  get_health_report fuel s = Some (r, s') ->
  exists calls,
    sock_calls s' = sock_calls s ++ calls /\
    (1 <= sends_in calls <= 13)%nat /\
    (recvs_in calls <= sends_in calls)%nat /\
    length (timeouts_set calls) = S (sends_in calls).
Proof.
  unfold get_health_report.
  destruct (retry_loop fuel initial_retry_interval s) as [[r1 s1]|] eqn:E;
    [|discriminate].
  intros H. injection H as <- <-.
  change initial_retry_interval with (interval_after 0) in E.
  apply retry_loop_counts in E; [|lia].
  destruct E as (calls & Hc & Hs & Hr & Ht).
  exists (calls ++ [call_settimeout (gettimeout s)]).
  cbn [settimeout sock_calls]. rewrite Hc, <- app_assoc.
  split; [reflexivity|].
  rewrite sends_in_app, recvs_in_app, timeouts_set_app, length_app.
  cbn. lia.
Qed.

Lemma at_most_thirteen_queries_witness :
  exists s' calls,
    get_health_report 13 (answers_third sound_report (Some 3%float)) =
    Some (Return (Some sound_report), s') /\
    sock_calls s' =
    sock_calls (answers_third sound_report (Some 3%float)) ++ calls /\
    (1 <= sends_in calls <= 13)%nat /\
    (recvs_in calls <= sends_in calls)%nat /\
    length (timeouts_set calls) = S (sends_in calls).
Proof.
  eexists.
  assert (E : get_health_report
                13 (answers_third sound_report (Some 3%float)) =
              Some (Return (Some sound_report), _))
    by (vm_compute; reflexivity).
  destruct (at_most_thirteen_queries _ _ _ _ E) as (calls & H).
  exists calls. split; [exact E | exact H].
Defined.

Lemma attempt_outcome (s : socket) (r : result bytes) (s1 : socket) :
  attempt s = (r, s1) ->
  match r with
  | Return p =>
      exists d, on_recv s (sock_calls s1) = Return d /\
                p = firstn (Z.to_nat 2048) d /\
                sock_calls s1 =
                sock_calls s ++ [call_send query_packet; call_recv 2048]
  | Raise e =>
      (on_send s (sock_calls s1) = Some e /\
       sock_calls s1 = sock_calls s ++ [call_send query_packet]) \/
      (on_recv s (sock_calls s1) = Raise e /\
       sock_calls s1 =
       sock_calls s ++ [call_send query_packet; call_recv 2048])
  end.
Proof.
  unfold attempt, send, recv. cbn [called sock_calls on_send on_recv].
  destruct (on_send s _) as [e|] eqn:Es.
  - intros H. injection H as <- <-. left. split; [exact Es | reflexivity].
  - destruct (on_recv s _) as [d|e] eqn:Er; intros H; injection H as <- <-;
      cbn [called sock_calls].
    + exists d. split; [exact Er|]. split; [reflexivity|].
      rewrite <- app_assoc. reflexivity.
    + right. split; [exact Er|]. rewrite <- app_assoc. reflexivity.
Qed.

(** How the loop leaves with bytes or with an exception: on the last call
    it made, which is the receive that delivered or the call that raised. *)
Lemma retry_loop_outcome (fuel : nat) (i : float) (s : socket)
      (r : result (option bytes)) (s' : socket) :
  retry_loop fuel i s = Some (r, s') ->
  match r with
  | Return (Some p) =>
      exists d pre,
        on_recv s (sock_calls s') = Return d /\
        p = firstn (Z.to_nat 2048) d /\
        sock_calls s' = pre ++ [call_recv 2048]
  | Return None => True
  | Raise e =>
      e <> socket_timeout /\
      ((on_send s (sock_calls s') = Some e /\
        exists pre, sock_calls s' = pre ++ [call_send query_packet]) \/
       (on_recv s (sock_calls s') = Raise e /\
        exists pre, sock_calls s' = pre ++ [call_recv 2048]))
  end.
Proof.
  revert i s. induction fuel as [|fuel IH]; intros i s; [discriminate|].
  cbn [retry_loop].
  destruct (attempt (settimeout (Some i) s)) as [ra s1] eqn:Ea.
  pose proof (attempt_effect _ _ _ Ea) as (_ & Hs & Hr & _).
  apply attempt_outcome in Ea.
  cbn [settimeout sock_calls on_send on_recv] in Ea, Hs, Hr.
  destruct ra as [p|e].
  - intros H. injection H as <- <-.
    destruct Ea as (d & Hd & Hp & Hc).
    exists d. eexists. split; [exact Hd|]. split; [exact Hp|].
    rewrite Hc. change [call_send query_packet; call_recv 2048]
      with ([call_send query_packet] ++ [call_recv 2048]).
    rewrite app_assoc. reflexivity.
  - assert (Hleave : e <> socket_timeout ->
               Some (@Raise (option bytes) e, s1) = Some (r, s') ->
               match r with
               | Return (Some p) =>
                   exists d pre,
                     on_recv s (sock_calls s') = Return d /\
                     p = firstn (Z.to_nat 2048) d /\
                     sock_calls s' = pre ++ [call_recv 2048]
               | Return None => True
               | Raise e =>
                   e <> socket_timeout /\
                   ((on_send s (sock_calls s') = Some e /\
                     exists pre,
                       sock_calls s' = pre ++ [call_send query_packet]) \/
                    (on_recv s (sock_calls s') = Raise e /\
                     exists pre, sock_calls s' = pre ++ [call_recv 2048]))
               end).
    { intros Hne H. injection H as <- <-. split; [exact Hne|].
      destruct Ea as [[He Hc]|[He Hc]]; [left|right];
        (split; [exact He|]); rewrite Hc.
      - eexists. reflexivity.
      - change [call_send query_packet; call_recv 2048]
          with ([call_send query_packet] ++ [call_recv 2048]).
        eexists. rewrite app_assoc. reflexivity. }
    destruct e; try (apply Hleave; discriminate).
    destruct (max_retry_interval <? i * retry_delay_factor)%float.
    + intros H. injection H as <- <-. exact I.
    + intros H. apply IH in H. rewrite Hs, Hr in H. exact H.
Qed.

(** X9: the bytes [get_health_report] returns are the datagram delivered
    by the last receive it made, cut to 2048 bytes, with no check of
    their content; they never exceed 2048 bytes, so the unchecked decoder
    finds at most 511 settings in them. *)
Theorem response_is_last_datagram (fuel : nat) (s : socket) (p : bytes)
        (s' : socket) :
  get_health_report fuel s = Some (Return (Some p), s') ->
  (exists d pre,
      on_recv s (pre ++ [call_recv 2048]) = Return d /\
      p = firstn (Z.to_nat 2048) d /\
      sock_calls s' =
      pre ++ [call_recv 2048; call_settimeout (gettimeout s)]) /\
  (length p <= 2048)%nat /\
  exists settings,
    _variable_settings p = Return settings /\
    (length settings <= 511)%nat.
Proof.
  unfold get_health_report.
  destruct (retry_loop fuel initial_retry_interval s) as [[r1 s1]|] eqn:E;
    [|discriminate].
  intros H. injection H as -> <-.
  apply retry_loop_outcome in E. destruct E as (d & pre & Hd & Hp & Hc).
  assert (Hlen : (length p <= 2048)%nat).
  { rewrite Hp, length_firstn. apply Nat.le_trans with (Z.to_nat 2048).
    - apply Nat.le_min_l.
    - apply Nat.eq_le_incl. reflexivity. }
  split; [|split; [exact Hlen|]].
  - exists d, pre. rewrite <- Hc. split; [exact Hd|]. split; [exact Hp|].
    cbn [settimeout sock_calls]. rewrite Hc, <- app_assoc. reflexivity.
  - rewrite variable_settings_unchecked. eexists. split; [reflexivity|].
    rewrite length_map, length_seq.
    apply Nat.le_trans with ((2048 - 4) / 4)%nat.
    + apply Nat.Div0.div_le_mono. lia.
    + apply Nat.eq_le_incl. reflexivity.
Qed.

Lemma response_is_last_datagram_witness :
  exists s',
    get_health_report 13 (answers_third sound_report (Some 3%float)) =
    Some (Return (Some sound_report), s') /\
    (length sound_report <= 2048)%nat /\
    exists settings,
      _variable_settings sound_report = Return settings /\
      (length settings <= 511)%nat.
Proof.
  eexists.
  assert (E : get_health_report
                13 (answers_third sound_report (Some 3%float)) =
              Some (Return (Some sound_report), _))
    by (vm_compute; reflexivity).
  split; [exact E|].
  exact (proj2 (response_is_last_datagram _ _ _ _ E)).
Defined.

(** X10: [get_health_report] never raises [socket.timeout] itself: a
    timeout is retried or turned into [None].  Any other exception is the
    one raised by the last [send] or [recv] it made, passed on unchanged
    with no further attempt, the timeout being restored after it. *)
Theorem channel_fault_propagates (fuel : nat) (s : socket) (e : exn)
        (s' : socket) :
  get_health_report fuel s = Some (Raise e, s') ->
  e <> socket_timeout /\
  gettimeout s' = gettimeout s /\
  exists h,
    sock_calls s' = h ++ [call_settimeout (gettimeout s)] /\
    ((on_send s h = Some e /\
      exists pre, h = pre ++ [call_send query_packet]) \/
     (on_recv s h = Raise e /\
      exists pre, h = pre ++ [call_recv 2048])).
Proof.
  unfold get_health_report.
  destruct (retry_loop fuel initial_retry_interval s) as [[r1 s1]|] eqn:E;
    [|discriminate].
  intros H. injection H as -> <-.
  apply retry_loop_outcome in E. destruct E as (Hne & Hlast).
  split; [exact Hne|]. split; [reflexivity|].
  exists (sock_calls s1). split; [reflexivity | exact Hlast].
Qed.

Lemma channel_fault_propagates_witness :
  exists s',
    get_health_report 13 (unreachable_socket (Some 3%float)) =
    Some (Raise (OSError 101), s') /\
    OSError 101 <> socket_timeout /\
    gettimeout s' = gettimeout (unreachable_socket (Some 3%float)) /\
    exists h,
      sock_calls s' =
      h ++ [call_settimeout (gettimeout (unreachable_socket (Some 3%float)))] /\
      ((on_send (unreachable_socket (Some 3%float)) h = Some (OSError 101) /\
        exists pre, h = pre ++ [call_send query_packet]) \/
       (on_recv (unreachable_socket (Some 3%float)) h = Raise (OSError 101) /\
        exists pre, h = pre ++ [call_recv 2048])).
Proof.
  eexists.
  assert (E : get_health_report 13 (unreachable_socket (Some 3%float)) =
              Some (Raise (OSError 101), _))
    by (vm_compute; reflexivity).
  split; [exact E|].
  exact (channel_fault_propagates _ _ _ _ E).
Defined.

(** *** A peer that answers after some timeouts *)

Lemma after_calls_nil (s : socket) : after_calls (sock_timeout s) [] s = s.
Proof.
  destruct s as [t cs fs fr]. unfold after_calls.
  cbn [sock_timeout sock_calls on_send on_recv]. rewrite app_nil_r.
  reflexivity.
Qed.

Lemma attempts_snoc (k : nat) :
  flat_map attempt_calls (seq 0 (S k)) =
  flat_map attempt_calls (seq 0 k) ++ attempt_calls k.
Proof.
  rewrite seq_S, flat_map_app. cbn [flat_map Nat.add]. rewrite app_nil_r.
  reflexivity.
Qed.

(** Attempt number [k] on a socket whose sends all go out. *)
Lemma attempt_after (s : socket) (k : nat) (t : option float) :
  (forall h, on_send s h = None) ->
  attempt (settimeout (Some (interval_after k))
                      (after_calls t (flat_map attempt_calls (seq 0 k)) s)) =
  (match on_recv s (sock_calls s ++ flat_map attempt_calls (seq 0 (S k))) with
   | Return d => Return (firstn (Z.to_nat 2048) d)
   | Raise e => Raise e
   end,
   after_calls (Some (interval_after k))
               (flat_map attempt_calls (seq 0 (S k))) s).
Proof.
  intros Hs. unfold attempt, send, recv.
  cbn [called settimeout after_calls sock_timeout sock_calls on_send on_recv].
  rewrite Hs. rewrite attempts_snoc.
  unfold called, settimeout, after_calls, attempt_calls.
  cbn [sock_timeout sock_calls on_send on_recv].
  rewrite <- !app_assoc. reflexivity.
Qed.

Lemma retry_loop_first_answer (s : socket) (j : nat) (d : bytes) :
  (forall h, on_send s h = None) ->
  (forall k, (k < j)%nat ->
             on_recv s (sock_calls s ++ flat_map attempt_calls (seq 0 (S k)))
             = Raise socket_timeout) ->
  on_recv s (sock_calls s ++ flat_map attempt_calls (seq 0 (S j)))
  = Return d ->
  (j <= 12)%nat ->
  forall fuel k t,
    (k <= j)%nat -> (j - k < fuel)%nat ->
    retry_loop fuel (interval_after k)
               (after_calls t (flat_map attempt_calls (seq 0 k)) s) =
    Some (Return (Some (firstn (Z.to_nat 2048) d)),
          after_calls (Some (interval_after j))
                      (flat_map attempt_calls (seq 0 (S j))) s).
Proof.
  intros Hs Hto Hans Hj.
  induction fuel as [|fuel IH]; intros k t Hk Hf; [lia|].
  cbn [retry_loop]. rewrite attempt_after by exact Hs.
  destruct (Nat.eq_dec k j) as [->|Hne].
  - rewrite Hans. reflexivity.
  - rewrite Hto by lia.
    change (interval_after k * retry_delay_factor)%float
      with (interval_after (S k)).
    rewrite ceiling_not_reached by lia.
    apply IH; lia.
Qed.

(** Thirteen timeouts in a row end the loop, whatever would come later. *)
Lemma retry_loop_all_timeouts (s : socket) :
  (forall h, on_send s h = None) ->
  (forall k, (k < 13)%nat ->
             on_recv s (sock_calls s ++ flat_map attempt_calls (seq 0 (S k)))
             = Raise socket_timeout) ->
  forall fuel k t,
    (k <= 12)%nat -> (13 - k <= fuel)%nat ->
    retry_loop fuel (interval_after k)
               (after_calls t (flat_map attempt_calls (seq 0 k)) s) =
    Some (Return None,
          after_calls (Some (interval_after 12))
                      (flat_map attempt_calls (seq 0 13)) s).
Proof.
  intros Hs Hto.
  induction fuel as [|fuel IH]; intros k t Hk Hf; [lia|].
  cbn [retry_loop]. rewrite attempt_after by exact Hs.
  rewrite Hto by lia.
  change (interval_after k * retry_delay_factor)%float
    with (interval_after (S k)).
  destruct (Nat.eq_dec k 12) as [->|Hne].
  - rewrite ceiling_crossed. reflexivity.
  - rewrite ceiling_not_reached by lia. apply IH; lia.
Qed.

(** X11: when every send goes out, the first [j] receives time out and
    receive number [j + 1] delivers a datagram, with [j] at most 12, the
    engine returns that datagram cut to 2048 bytes.  It has made [j + 1]
    attempts, at the intervals of the schedule, and then restored the
    timeout. *)
Theorem first_answer_returned (fuel : nat) (s : socket) (j : nat)
        (d : bytes) :
  (forall h, on_send s h = None) ->
  (forall k, (k < j)%nat ->
             on_recv s (sock_calls s ++ flat_map attempt_calls (seq 0 (S k)))
             = Raise socket_timeout) ->
  on_recv s (sock_calls s ++ flat_map attempt_calls (seq 0 (S j)))
  = Return d ->
  (j <= 12)%nat -> (j < fuel)%nat ->
  exists s',
    get_health_report fuel s =
    Some (Return (Some (firstn (Z.to_nat 2048) d)), s') /\
    sock_calls s' =
    sock_calls s ++ flat_map attempt_calls (seq 0 (S j))
               ++ [call_settimeout (gettimeout s)] /\
    gettimeout s' = gettimeout s.
Proof.
  intros Hs Hto Hans Hj Hf. unfold get_health_report.
  change initial_retry_interval with (interval_after 0).
  pose proof (retry_loop_first_answer s j d Hs Hto Hans Hj
                fuel 0%nat (sock_timeout s)) as H.
  cbn [seq flat_map] in H. rewrite after_calls_nil in H.
  rewrite H by lia.
  eexists. split; [reflexivity|].
  cbn [settimeout after_calls sock_calls sock_timeout gettimeout].
  rewrite <- app_assoc. split; reflexivity.
Qed.

Lemma first_answer_returned_witness :
  exists s',
    get_health_report 5 (answers_nth 3 sound_report (Some 3%float)) =
    Some (Return (Some (firstn (Z.to_nat 2048) sound_report)), s') /\
    sock_calls s' =
    sock_calls (answers_nth 3 sound_report (Some 3%float))
               ++ flat_map attempt_calls (seq 0 3)
               ++ [call_settimeout
                     (gettimeout (answers_nth 3 sound_report (Some 3%float)))] /\
    gettimeout s' = gettimeout (answers_nth 3 sound_report (Some 3%float)).
Proof.
  apply (first_answer_returned
           5 (answers_nth 3 sound_report (Some 3%float)) 2 sound_report).
  - intros h. reflexivity.
  - intros k Hk. destruct k as [|[|k]]; [reflexivity | reflexivity | lia].
  - reflexivity.
  - lia.
  - lia.
Defined.

(** X12: when every send goes out and the first thirteen receives time
    out, the engine gives up with [None] after thirteen attempts, whatever
    the peer would have delivered to a fourteenth receive. *)
Theorem late_answer_never_heard (fuel : nat) (s : socket) :
  (forall h, on_send s h = None) ->
  (forall k, (k < 13)%nat ->
             on_recv s (sock_calls s ++ flat_map attempt_calls (seq 0 (S k)))
             = Raise socket_timeout) ->
  (13 <= fuel)%nat ->
  exists s',
    get_health_report fuel s = Some (Return None, s') /\
    sock_calls s' =
    sock_calls s ++ flat_map attempt_calls (seq 0 13)
               ++ [call_settimeout (gettimeout s)] /\
    gettimeout s' = gettimeout s.
Proof.
  intros Hs Hto Hf. unfold get_health_report.
  change initial_retry_interval with (interval_after 0).
  pose proof (retry_loop_all_timeouts s Hs Hto
                fuel 0%nat (sock_timeout s)) as H.
  cbn [seq flat_map] in H. rewrite after_calls_nil in H.
  rewrite H by lia.
  eexists. split; [reflexivity|].
  cbn [settimeout after_calls sock_calls sock_timeout gettimeout].
  rewrite <- app_assoc. split; reflexivity.
Qed.

Lemma late_answer_never_heard_witness :
  exists s',
    get_health_report 20 (answers_nth 14 sound_report None) =
    Some (Return None, s') /\
    sock_calls s' =
    sock_calls (answers_nth 14 sound_report None)
               ++ flat_map attempt_calls (seq 0 13)
               ++ [call_settimeout
                     (gettimeout (answers_nth 14 sound_report None))] /\
    gettimeout s' = gettimeout (answers_nth 14 sound_report None).
Proof.
  apply (late_answer_never_heard 20 (answers_nth 14 sound_report None)).
  - intros h. reflexivity.
  - intros k Hk. do 13 (destruct k as [|k]; [reflexivity|]). lia.
  - lia.
Defined.

(** * Properties of the display *)

(** X13: when the engine returns a buffer of at least four bytes,
    [show_health_report] raises nothing, checksum right or wrong.  It
    prints the length line, one checksum line and then one line per
    setting in order; the checksum line is the "checks OK" one exactly
    when the strict decoder accepts the buffer, and otherwise it shows the
    computed and the embedded checksum that the [ValueError] of the strict
    decoder carries. *)
Theorem show_prints_report (rt : Runtime) (fuel : nat) (s : socket)
        (p : bytes) (s' : socket) :
  get_health_report fuel s = Some (Return (Some p), s') ->
  (4 <= length p)%nat ->
  exists settings checksum_line,
    _variable_settings p = Return settings /\
    show_health_report fuel s =
    Some (Return tt, s',
          printed_format "Health report of {} bytes:" [Z.of_nat (length p)]
          :: checksum_line :: map setting_line settings) /\
    (variable_settings p = Return settings <->
     checksum_line =
     printed_format "checksum {:08x} checks OK" [be_decode (firstn 4 p)]) /\
    (forall raw expected received,
        variable_settings p = Raise (ValueError raw expected received) ->
        checksum_line =
        printed_format "checksum {:08x} doesn’t match {:08x} in packet"
                       [expected; received]).
Proof.
  intros Hg Hlen. unfold show_health_report. rewrite Hg.
  rewrite parse_health_report_long by exact Hlen.
  rewrite variable_settings_long by exact Hlen.
  rewrite variable_settings_unchecked.
  rewrite (Z.eqb_sym (be_decode (firstn 4 p))).
  do 2 eexists. split; [reflexivity|]. split; [reflexivity|].
  destruct (adler32 (skipn 4 p) =? be_decode (firstn 4 p)); cbn [negb].
  - split; [split; reflexivity | discriminate].
  - split; [split; discriminate|].
    intros raw e r H. injection H as _ <- <-. reflexivity.
Qed.

Lemma show_prints_report_witness :
  exists s' settings checksum_line,
    get_health_report 13 (answers_nth 3 corrupt_report None) =
    Some (Return (Some corrupt_report), s') /\
    _variable_settings corrupt_report = Return settings /\
    @show_health_report python3 13 (answers_nth 3 corrupt_report None) =
    Some (Return tt, s',
          printed_format "Health report of {} bytes:"
                         [Z.of_nat (length corrupt_report)]
          :: checksum_line :: map setting_line settings) /\
    (@variable_settings python3 corrupt_report = Return settings <->
     checksum_line =
     printed_format "checksum {:08x} checks OK"
                    [be_decode (firstn 4 corrupt_report)]) /\
    (forall raw expected received,
        @variable_settings python3 corrupt_report =
        Raise (ValueError raw expected received) ->
        checksum_line =
        printed_format "checksum {:08x} doesn’t match {:08x} in packet"
                       [expected; received]).
Proof.
  eexists.
  assert (E : get_health_report 13 (answers_nth 3 corrupt_report None) =
              Some (Return (Some corrupt_report), _))
    by (vm_compute; reflexivity).
  destruct (show_prints_report python3 _ _ _ _ E ltac:(cbn; lia))
    as (settings & line & H).
  exists settings, line. split; [exact E | exact H].
Defined.

(** X14: when the engine returns fewer than four bytes, the empty
    datagram included, [show_health_report] prints the length line and
    then raises the [struct.error] of the decoder: nothing catches it. *)
Theorem show_raises_on_runt (rt : Runtime) (fuel : nat) (s : socket)
        (p : bytes) (s' : socket) :
  get_health_report fuel s = Some (Return (Some p), s') ->
  (length p < 4)%nat ->
  show_health_report fuel s =
  Some (Raise (struct_error (bad_buffer_size 4)), s',
        [printed_format "Health report of {} bytes:" [Z.of_nat (length p)]]).
Proof.
  intros Hg Hlen. unfold show_health_report. rewrite Hg.
  rewrite parse_health_report_short by exact Hlen. reflexivity.
Qed.

Lemma show_raises_on_runt_witness :
  exists s',
    get_health_report 13 (answers_nth 1 [] None) =
    Some (Return (Some []), s') /\
    @show_health_report python3 13 (answers_nth 1 [] None) =
    Some (Raise (struct_error (bad_buffer_size 4)), s',
          [printed_format "Health report of {} bytes:" [0]]).
Proof.
  eexists.
  assert (E : get_health_report 13 (answers_nth 1 [] None) =
              Some (Return (Some []), _))
    by (vm_compute; reflexivity).
  split; [exact E|].
  exact (show_raises_on_runt python3 _ _ _ _ E ltac:(cbn; lia)).
Defined.

(** X15: on a channel whose first thirteen receives time out,
    [show_health_report] prints the "Timeout polling" line and nothing
    else, decodes nothing and returns normally, after thirteen queries and
    with the timeout restored. *)
Theorem show_reports_timeout (rt : Runtime) (fuel : nat) (s : socket) :
  (forall h, on_send s h = None) ->
  (forall k, (k < 13)%nat ->
             on_recv s (sock_calls s ++ flat_map attempt_calls (seq 0 (S k)))
             = Raise socket_timeout) ->
  (13 <= fuel)%nat ->
  exists s',
    show_health_report fuel s =
    Some (Return tt, s', [printed_peername "Timeout polling"]) /\
    sock_calls s' =
    sock_calls s ++ flat_map attempt_calls (seq 0 13)
               ++ [call_settimeout (gettimeout s)] /\
    gettimeout s' = gettimeout s.
Proof.
  intros Hs Hto Hf. unfold show_health_report, get_health_report.
  change initial_retry_interval with (interval_after 0).
  pose proof (retry_loop_all_timeouts s Hs Hto
                fuel 0%nat (sock_timeout s)) as H.
  cbn [seq flat_map] in H. rewrite after_calls_nil in H.
  rewrite H by lia.
  eexists. split; [reflexivity|].
  cbn [settimeout after_calls sock_calls sock_timeout gettimeout].
  rewrite <- app_assoc. split; reflexivity.
Qed.

Lemma show_reports_timeout_witness :
  exists s',
    @show_health_report python3 13 (silent_socket (Some 3%float)) =
    Some (Return tt, s', [printed_peername "Timeout polling"]) /\
    sock_calls s' =
    sock_calls (silent_socket (Some 3%float))
               ++ flat_map attempt_calls (seq 0 13)
               ++ [call_settimeout (gettimeout (silent_socket (Some 3%float)))] /\
    gettimeout s' = gettimeout (silent_socket (Some 3%float)).
Proof.
  apply (show_reports_timeout python3 13 (silent_socket (Some 3%float))).
  - intros h. reflexivity.
  - intros k Hk. reflexivity.
  - lia.
Defined.

(** * The two runtimes *)

(** X16: the signed checksum of Python 2 and the unsigned one of Python 3
    differ on some data, yet the packet [set_packet] builds and what the
    lenient and the strict decoder return are the same on both. *)
Theorem codec_same_on_both_runtimes (variable sender value : Z) (p : bytes) :
  @set_packet python2 variable sender value =
  @set_packet python3 variable sender value /\
  @parse_health_report python2 p = @parse_health_report python3 p /\
  @variable_settings python2 p = @variable_settings python3 p /\
  exists data, @zlib_adler32 python2 data <> @zlib_adler32 python3 data.
Proof.
  assert (Hp : @parse_health_report python2 p = @parse_health_report python3 p).
  { unfold parse_health_report.
    rewrite (@adler32_is_bits python2), (@adler32_is_bits python3).
    reflexivity. }
  split; [|split; [exact Hp|split]].
  - unfold set_packet.
    destruct (struct_pack_BBBB 241 variable sender value) as [payload|e];
      [|reflexivity].
    cbn [bind].
    rewrite (@adler32_is_bits python2), (@adler32_is_bits python3).
    reflexivity.
  - unfold variable_settings. rewrite Hp. reflexivity.
  - exists (repeat xff 16). vm_compute. discriminate.
Qed.
